(** * A task store kept in a JSON file: model of [src/todo.py]

    The program reads the whole file, changes the list in memory and writes
    the whole file back.  The development follows that shape:

    - [Text]   Python [str] as code points, files as bytes, strict UTF-8
               in between (the files are opened with [encoding="utf-8"]);
    - [Py]     the dynamically typed values [json.load] can hand to the
               program, with the operations the program applies to them;
    - [Json]   the text [json.dump(_, indent=2, ensure_ascii=False)] writes;
    - [Sys]    the file system, standard output and the exceptions, threaded
               through a small state-and-error monad;
    - [Todo]   the five functions of the task store, with [json.loads] as
               a parameter;
    - [Reader] a JSON reader, proved to invert [Json.dumps]: it shows that
               what is assumed of [json.loads] can be met, and runs the
               model on the tests of the repository;
    - [Sample] the data of these tests.

    The properties come after the definitions: the codec, the encoder and
    the reader first, then the task store. *)

From Stdlib Require Import ZArith NArith Lia Bool List String Ascii.
From Stdlib Require Import Init.Byte Decimal DecimalFacts DecimalPos DecimalN DecimalZ.
From stdpp Require Import base option list gmap strings.

Import ListNotations.
Local Open Scope N_scope.

Set Warnings "-register-all".


(* ===================================================================== *)
(** ** Text and bytes *)
(* ===================================================================== *)

Module Text.

(** A Python [str] is a sequence of code points. *)
Definition str := list N.

Definition chr (c : ascii) : N := N_of_ascii c.

(** An ASCII literal of the source, as a [str]. *)
Definition lit (s : string) : str := map chr (list_ascii_of_string s).

(** Code points that the [utf-8] codec accepts in strict mode: all of
    Unicode except the surrogate range. *)
Definition scalar (c : N) : bool :=
  (c <? 0xD800) || ((0xE000 <=? c) && (c <? 0x110000)).

Definition encodable (s : str) : Prop := Forall (fun c => scalar c = true) s.

Definition b8 (n : N) : byte := default "000"%byte (Byte.of_N n).

Definition utf8_encode_char (c : N) : option (list byte) :=
  if c <? 0x80 then Some [b8 c]
  else if c <? 0x800 then Some [b8 (0xC0 + c / 64); b8 (0x80 + c mod 64)]
  else if c <? 0x10000 then
    if (0xD800 <=? c) && (c <? 0xE000) then None
    else Some [b8 (0xE0 + c / 4096); b8 (0x80 + (c / 64) mod 64);
               b8 (0x80 + c mod 64)]
  else if c <? 0x110000 then
    Some [b8 (0xF0 + c / 262144); b8 (0x80 + (c / 4096) mod 64);
          b8 (0x80 + (c / 64) mod 64); b8 (0x80 + c mod 64)]
  else None.

(** [s.encode("utf-8")]; [None] stands for [UnicodeEncodeError]. *)
Fixpoint utf8_encode (s : str) : option (list byte) :=
  match s with
  | [] => Some []
  | c :: s' =>
      match utf8_encode_char c, utf8_encode s' with
      | Some bs, Some bs' => Some (bs ++ bs')
      | _, _ => None
      end
  end.

Definition cont (b : byte) : bool :=
  (0x80 <=? Byte.to_N b) && (Byte.to_N b <? 0xC0).

Definition tail6 (b : byte) : N := Byte.to_N b - 0x80.

(** [bs.decode("utf-8")] in strict mode; [None] stands for
    [UnicodeDecodeError].  Overlong forms, surrogates and values above
    U+10FFFF are refused. *)
Fixpoint utf8_decode (bs : list byte) : option str :=
  match bs with
  | [] => Some []
  | b0 :: r0 =>
      let n0 := Byte.to_N b0 in
      if n0 <? 0x80 then cons n0 <$> utf8_decode r0
      else if (0xC2 <=? n0) && (n0 <? 0xE0) then
        match r0 with
        | b1 :: r1 =>
            if cont b1
            then cons ((n0 - 0xC0) * 64 + tail6 b1) <$> utf8_decode r1
            else None
        | _ => None
        end
      else if (0xE0 <=? n0) && (n0 <? 0xF0) then
        match r0 with
        | b1 :: b2 :: r2 =>
            let c := (n0 - 0xE0) * 4096 + tail6 b1 * 64 + tail6 b2 in
            if cont b1 && cont b2 && (0x800 <=? c) && scalar c
            then cons c <$> utf8_decode r2
            else None
        | _ => None
        end
      else if (0xF0 <=? n0) && (n0 <? 0xF5) then
        match r0 with
        | b1 :: b2 :: b3 :: r3 =>
            let c := (n0 - 0xF0) * 262144 + tail6 b1 * 4096
                     + tail6 b2 * 64 + tail6 b3 in
            if cont b1 && cont b2 && cont b3 && (0x10000 <=? c) && scalar c
            then cons c <$> utf8_decode r3
            else None
        | _ => None
        end
      else None
  end.

(** Reading in text mode with the default [newline=None]: the line ends
    [\r\n] and [\r] reach the program as [\n].  (Writing on a POSIX system
    leaves [\n] as it is.) *)
Fixpoint universal_newlines (s : str) : str :=
  match s with
  | [] => []
  | 13 :: s' =>
      match s' with
      | 10 :: _ => universal_newlines s'
      | _ => 10 :: universal_newlines s'
      end
  | c :: s' => c :: universal_newlines s'
  end.

End Text.

(* ===================================================================== *)
(** ** Python values *)
(* ===================================================================== *)

Module Py.
Import Text.

(** What [json.load] returns: [None], [bool], [int], [str], [list] and
    [dict] with [str] keys.  A [dict] keeps its keys in insertion order, so
    it is a list of pairs; a Python [dict] never holds a key twice
    ([wf_value] below).  [float] is left out: no operation of the task store
    produces one.  A store that holds a number with a fraction or an
    exponent is therefore outside every statement of this file; where a
    statement tells values apart by their kind, it names the kinds. *)
Inductive value :=
| PyNone
| PyBool (b : bool)
| PyInt (z : Z)
| PyStr (s : str)
| PyList (l : list value)
| PyDict (d : list (str * value)).

(** The exceptions the task store can meet. *)
Inductive exn :=
| TypeError
| AttributeError
| UnicodeDecodeError
| UnicodeEncodeError
| FileNotFoundError
| PermissionError
| IsADirectoryError.

Inductive result (A : Type) :=
| Ret (a : A)
| Raise (e : exn).
Arguments Ret {A} a.
Arguments Raise {A} e.

Definition rbind {A B} (r : result A) (k : A -> result B) : result B :=
  match r with
  | Ret a => k a
  | Raise e => Raise e
  end.

(** *** Dictionaries *)

Fixpoint dict_get (k : str) (d : list (str * value)) : option value :=
  match d with
  | [] => None
  | (k', v) :: d' => if decide (k = k') then Some v else dict_get k d'
  end.

(** [d[k] = v]: an existing key keeps its place, a new key goes last. *)
Fixpoint dict_set (k : str) (v : value) (d : list (str * value))
  : list (str * value) :=
  match d with
  | [] => [(k, v)]
  | (k', v') :: d' =>
      if decide (k = k') then (k', v) :: d' else (k', v') :: dict_set k v d'
  end.

Definition keys (d : list (str * value)) : list str := map fst d.

(** No key twice, at every depth. *)
Fixpoint wf_value (v : value) : Prop :=
  match v with
  | PyList l => (fix all l := match l with
                             | [] => True
                             | x :: l' => wf_value x /\ all l'
                             end) l
  | PyDict d => NoDup (keys d) /\
                (fix all d := match d with
                              | [] => True
                              | (_, x) :: d' => wf_value x /\ all d'
                              end) d
  | _ => True
  end.

(** The strings inside a value, keys included. *)
Fixpoint strings_of (v : value) : list str :=
  match v with
  | PyStr s => [s]
  | PyList l => flat_map strings_of l
  | PyDict d => flat_map (fun kv => fst kv :: strings_of (snd kv)) d
  | _ => []
  end.

(** Every string inside the value can be written as UTF-8. *)
Definition encodable_value (v : value) : Prop :=
  Forall encodable (strings_of v).

(** *** Operators *)

(** [bool] is a subclass of [int]: [True] counts as 1, [False] as 0. *)
Definition as_int (v : value) : option Z :=
  match v with
  | PyInt z => Some z
  | PyBool b => Some (Z.b2z b)
  | _ => None
  end.

(** [bool(v)], as [if not tasks] and [if t.get("done")] use it. *)
Definition truthy (v : value) : bool :=
  match v with
  | PyNone => false
  | PyBool b => b
  | PyInt z => negb (z =? 0)%Z
  | PyStr s => negb (bool_decide (s = []))
  | PyList l => negb (bool_decide (l = []))
  | PyDict d => negb (bool_decide (d = []))
  end.

(** [a == b].  Numbers compare by value, sequences item by item,
    dictionaries key by key whatever the order; values of unrelated types
    are different.  It never raises. *)
Fixpoint py_eq (a b : value) {struct a} : bool :=
  match a with
  | PyNone => match b with PyNone => true | _ => false end
  | PyBool x =>
      match as_int b with Some y => (Z.b2z x =? y)%Z | None => false end
  | PyInt x =>
      match as_int b with Some y => (x =? y)%Z | None => false end
  | PyStr x => match b with PyStr y => bool_decide (x = y) | _ => false end
  | PyList xs =>
      match b with
      | PyList ys =>
          (fix go xs ys {struct xs} :=
             match xs, ys with
             | [], [] => true
             | x :: xs', y :: ys' => py_eq x y && go xs' ys'
             | _, _ => false
             end) xs ys
      | _ => false
      end
  | PyDict xs =>
      match b with
      | PyDict ys =>
          (length xs =? length ys)%nat &&
          (fix go xs {struct xs} :=
             match xs with
             | [] => true
             | (k, x) :: xs' =>
                 match dict_get k ys with
                 | Some y => py_eq x y
                 | None => false
                 end && go xs'
             end) xs
      | _ => false
      end
  end.

(** Strings order by code point. *)
Fixpoint str_gt (x y : str) : bool :=
  match x, y with
  | [], _ => false
  | _ :: _, [] => true
  | c :: x', d :: y' => (d <? c) || ((c =? d) && str_gt x' y')
  end.

(** [a > b], as [max] applies it.  Numbers and strings are ordered among
    themselves, lists by their first differing item; anything else raises
    [TypeError]. *)
Fixpoint py_gt (a b : value) {struct a} : result bool :=
  match a with
  | PyBool _ | PyInt _ =>
      match as_int a, as_int b with
      | Some x, Some y => Ret (y <? x)%Z
      | _, _ => Raise TypeError
      end
  | PyStr x => match b with PyStr y => Ret (str_gt x y) | _ => Raise TypeError end
  | PyList xs =>
      match b with
      | PyList ys =>
          (fix go xs ys {struct xs} :=
             match xs, ys with
             | [], _ => Ret false
             | _ :: _, [] => Ret true
             | x :: xs', y :: ys' =>
                 if py_eq x y then go xs' ys' else py_gt x y
             end) xs ys
      | _ => Raise TypeError
      end
  | PyNone | PyDict _ => Raise TypeError
  end.

(** [x + 1]. *)
Definition add_one (v : value) : result value :=
  match as_int v with
  | Some z => Ret (PyInt (z + 1))
  | None => Raise TypeError
  end.

(** The items a [for] loop sees: those of a list, the keys of a
    dictionary, the characters of a string; the rest is not iterable. *)
Definition py_iter (v : value) : result (list value) :=
  match v with
  | PyList l => Ret l
  | PyDict d => Ret (map PyStr (keys d))
  | PyStr s => Ret (map (fun c => PyStr [c]) s)
  | _ => Raise TypeError
  end.

(** [t.get(k, dflt)]: only a dictionary has the method. *)
Definition get (t : value) (k : str) (dflt : value) : result value :=
  match t with
  | PyDict d => Ret (default dflt (dict_get k d))
  | _ => Raise AttributeError
  end.

(** [t[k] = v]. *)
Definition setitem (t : value) (k : str) (v : value) : result value :=
  match t with
  | PyDict d => Ret (PyDict (dict_set k v d))
  | _ => Raise TypeError
  end.

(** [tasks.append(x)]: only a list has the method. *)
Definition append (tasks x : value) : result value :=
  match tasks with
  | PyList l => Ret (PyList (l ++ [x]))
  | _ => Raise AttributeError
  end.

(** *** Rendering *)

Fixpoint uint_str (d : uint) : str :=
  match d with
  | Nil => []
  | D0 d => 48 :: uint_str d
  | D1 d => 49 :: uint_str d
  | D2 d => 50 :: uint_str d
  | D3 d => 51 :: uint_str d
  | D4 d => 52 :: uint_str d
  | D5 d => 53 :: uint_str d
  | D6 d => 54 :: uint_str d
  | D7 d => 55 :: uint_str d
  | D8 d => 56 :: uint_str d
  | D9 d => 57 :: uint_str d
  end.

(** [str(z)] for an [int]: decimal, a minus sign when negative. *)
Definition int_str (z : Z) : str :=
  match Z.to_int z with
  | Pos d => uint_str d
  | Neg d => 45 :: uint_str d
  end.

(** What an f-string field shows.  For a list or a dictionary that is its
    [repr], which is left to the parameter [repr]. *)
Definition format (repr : value -> str) (v : value) : str :=
  match v with
  | PyNone => lit "None"
  | PyBool true => lit "True"
  | PyBool false => lit "False"
  | PyInt z => int_str z
  | PyStr s => s
  | PyList _ | PyDict _ => repr v
  end.

End Py.

(* ===================================================================== *)
(** ** The JSON text written by [json.dump] *)
(* ===================================================================== *)

Module Json.
Import Text Py.

Definition hex_digit (n : N) : N := if n <? 10 then 48 + n else 87 + n.

(** [ensure_ascii=False]: only the quote, the backslash and the control
    characters below U+0020 are escaped; everything else is written as it
    is. *)
Definition escape_char (c : N) : str :=
  if c =? 34 then [92; 34]
  else if c =? 92 then lit "\\"
  else if c =? 10 then lit "\n"
  else if c =? 13 then lit "\r"
  else if c =? 9 then lit "\t"
  else if c =? 8 then lit "\b"
  else if c =? 12 then lit "\f"
  else if c <? 32 then lit "\u00" ++ [hex_digit (c / 16); hex_digit (c mod 16)]
  else [c].

Definition encode_str (s : str) : str :=
  34 :: flat_map escape_char s ++ [34].

(** A line break followed by the indentation of level [lvl] ([indent=2]). *)
Definition newline_indent (lvl : nat) : str := 10 :: repeat 32 (2 * lvl)%nat.

Fixpoint join (sep : str) (parts : list str) : str :=
  match parts with
  | [] => []
  | [p] => p
  | p :: ps => p ++ sep ++ join sep ps
  end.

(** The encoder with [indent=2]: items are separated by [","] and a line
    break, a key from its value by [": "]; an empty list is ["[]"] and an
    empty dictionary ["{}"]. *)
Fixpoint encode (lvl : nat) (v : value) : str :=
  match v with
  | PyNone => lit "null"
  | PyBool true => lit "true"
  | PyBool false => lit "false"
  | PyInt z => int_str z
  | PyStr s => encode_str s
  | PyList [] => lit "[]"
  | PyList l =>
      91 :: newline_indent (S lvl)
         ++ join (44 :: newline_indent (S lvl)) (map (encode (S lvl)) l)
         ++ newline_indent lvl ++ [93]
  | PyDict [] => lit "{}"
  | PyDict d =>
      123 :: newline_indent (S lvl)
          ++ join (44 :: newline_indent (S lvl))
               (map (fun kv => encode_str (fst kv) ++ lit ": "
                               ++ encode (S lvl) (snd kv)) d)
          ++ newline_indent lvl ++ [125]
  end.

(** The whole text [json.dump(v, f, indent=2, ensure_ascii=False)] sends
    to [f]. *)
Definition dumps (v : value) : str := encode 0 v.

End Json.

(* ===================================================================== *)
(** ** Files, standard output and exceptions *)
(* ===================================================================== *)

Module Sys.
Import Text Py.

(** What a path leads to.  A path that is not in the map is free: nothing
    is there and a file can be created.  [Blocked] is a path where nothing
    is and nothing can be created (the directory above is missing or
    read-only). *)
Inductive node :=
| File (readable writable : bool) (data : list byte)
| Dir
| Blocked.

Record world := World {
  fs : gmap string node;
  stdout : list str            (* one entry per call of [print] *)
}.

(** A computation reads and changes the world and returns or raises; the
    world it leaves behind is kept in both cases. *)
Definition M (A : Type) : Type := world -> result A * world.

Definition ret {A} (a : A) : M A := fun w => (Ret a, w).
Definition raise {A} (e : exn) : M A := fun w => (Raise e, w).
Definition bind {A B} (m : M A) (k : A -> M B) : M B :=
  fun w => match m w with
           | (Ret a, w') => k a w'
           | (Raise e, w') => (Raise e, w')
           end.
Definition lift {A} (r : result A) : M A := fun w => (r, w).

Declare Scope io_scope.
Delimit Scope io_scope with io.
Notation "x <- m ;; k" := (bind m (fun x => k))
  (at level 100, m at next level, right associativity) : io_scope.
Notation "m ;;; k" := (bind m (fun _ => k))
  (at level 100, right associativity) : io_scope.

Local Open Scope io_scope.

Definition set_fs (f : gmap string node -> gmap string node) : M unit :=
  fun w => (Ret tt, World (f (fs w)) (stdout w)).

(** [print(s)] *)
Definition print (s : str) : M unit :=
  fun w => (Ret tt, World (fs w) (stdout w ++ [s])).

(** [os.path.exists(path)] *)
Definition os_path_exists (path : string) : M bool :=
  fun w => (Ret match fs w !! path with
                | Some (File _ _ _) | Some Dir => true
                | Some Blocked | None => false
                end, w).

(** [open(path, "r", encoding="utf-8")]: the bytes behind the handle. *)
Definition open_r (path : string) : M (list byte) :=
  fun w => match fs w !! path with
           | Some (File true _ data) => (Ret data, w)
           | Some (File false _ _) => (Raise PermissionError, w)
           | Some Dir => (Raise IsADirectoryError, w)
           | Some Blocked | None => (Raise FileNotFoundError, w)
           end.

(** [f.read()] on a handle opened for reading as text. *)
Definition read (data : list byte) : M str :=
  match utf8_decode data with
  | Some s => ret (universal_newlines s)
  | None => raise UnicodeDecodeError
  end.

(** [open(path, "w", encoding="utf-8")]: the file is created if the path is
    free and emptied if it is there. *)
Definition open_w (path : string) : M unit :=
  fun w => match fs w !! path with
           | None => (Ret tt, World (<[path := File true true []]> (fs w)) (stdout w))
           | Some (File r true _) =>
               (Ret tt, World (<[path := File r true []]> (fs w)) (stdout w))
           | Some (File _ false _) => (Raise PermissionError, w)
           | Some Dir => (Raise IsADirectoryError, w)
           | Some Blocked => (Raise FileNotFoundError, w)
           end.

(** The bytes of the file at [path] become [data] (the handle is open for
    writing, so the file is there). *)
Definition put (path : string) (data : list byte) : M unit :=
  set_fs (fun m => match m !! path with
                   | Some (File r wr _) => <[path := File r wr data]> m
                   | _ => m
                   end).

(** A place where [open(path, "w")] succeeds. *)
Definition writable (m : gmap string node) (path : string) : Prop :=
  m !! path = None \/ exists r data, m !! path = Some (File r true data).

(** A place where a file can be written and read back. *)
Definition usable (m : gmap string node) (path : string) : Prop :=
  m !! path = None \/ exists data, m !! path = Some (File true true data).

(** The file system after [save_tasks] has written [data] at [path]: the
    file keeps the read permission of the one it replaces. *)
Definition saved (m : gmap string node) (path : string) (data : list byte)
  : gmap string node :=
  <[path := File match m !! path with
                 | Some (File r _ _) => r
                 | _ => true
                 end true data]> m.

End Sys.

(* ===================================================================== *)
(** ** The task store *)
(* ===================================================================== *)

(** The functions of [src/todo.py] that read and write the store.  The
    path, which the source defaults to [DEFAULT_TASKS_FILE], is always
    given; the command line ([build_parser], [main]) is not modelled. *)
Module Todo.
Import Text Py Json Sys.
Local Open Scope io_scope.

(** What [datetime.utcnow()] returns.  The fields are in range: the year
    has at most four digits, the microseconds at most six, the others at
    most two. *)
Record datetime := DateTime {
  year : N; month : N; day : N;
  hour : N; minute : N; second : N; microsecond : N
}.

(** [n] in decimal on [w] digits, zero-padded. *)
Fixpoint digits (w : nat) (n : N) : str :=
  match w with
  | O => []
  | S w' => digits w' (n / 10) ++ [48 + n mod 10]
  end.

(** [t.isoformat()]: [YYYY-MM-DDTHH:MM:SS], followed by [.ffffff] when the
    microseconds are not zero. *)
Definition isoformat (t : datetime) : str :=
  digits 4 (year t) ++ lit "-" ++ digits 2 (month t) ++ lit "-"
  ++ digits 2 (day t) ++ lit "T" ++ digits 2 (hour t) ++ lit ":"
  ++ digits 2 (minute t) ++ lit ":" ++ digits 2 (second t)
  ++ (if microsecond t =? 0 then [] else lit "." ++ digits 6 (microsecond t)).

Definition k_id : str := lit "id".
Definition k_title : str := lit "title".
Definition k_description : str := lit "description".
Definition k_created_at : str := lit "created_at".
Definition k_done : str := lit "done".

(** The dictionary [add_task] builds, with its keys in the order of the
    source. *)
Definition new_task (i : value) (title desc : str) (now : datetime) : value :=
  PyDict [ (k_id, i);
           (k_title, PyStr title);
           (k_description, PyStr desc);
           (k_created_at, PyStr (isoformat now ++ lit "Z"));
           (k_done, PyBool false) ].

(** *** Notions used to state the properties *)

(** A task record is a dictionary. *)
Definition is_record (t : value) : Prop :=
  match t with PyDict _ => True | _ => False end.

(** The id of a record as an integer, when it has one. *)
Definition int_id (t : value) : option Z :=
  match t with
  | PyDict d => dict_get k_id d ≫= as_int
  | _ => None
  end.

(** The id of a record as [add_task] reads it: 0 when the key is
    missing. *)
Definition id_or_zero (t : value) : option Z :=
  match t with
  | PyDict d => as_int (default (PyInt 0) (dict_get k_id d))
  | _ => None
  end.

(** The largest of the given ids, 0 when there is none. *)
Definition max_or_zero (ids : list Z) : Z :=
  match ids with
  | [] => 0%Z
  | i :: ids' => foldl Z.max i ids'
  end.

(** A record after [t["done"] = True]. *)
Definition mark_done (t : value) : value :=
  match t with
  | PyDict d => PyDict (dict_set k_done (PyBool true) d)
  | _ => t
  end.

Section Library.

(** [json.loads]: the value a text denotes, [None] when it raises
    [JSONDecodeError]. *)
Variable json_loads : str -> option value.

(** [repr] of a list or a dictionary (used by f-strings only). *)
Variable repr : value -> str.

(** The bytes that have reached the file when the text layer refuses a
    chunk of [json.dump]'s output (it depends on how the encoder cuts its
    output into chunks). *)
Variable flushed : str -> list byte.

(** [load_tasks(path)] *)
Definition load_tasks (path : string) : M value :=
  e <- os_path_exists path ;;
  if negb e then ret (PyList [])
  else
    f <- open_r path ;;
    text <- read f ;;                    (* inside [json.load(f)] *)
    match json_loads text with
    | Some v => ret v
    | None => ret (PyList [])            (* [except json.JSONDecodeError] *)
    end.

(** [json.dump(tasks, f, indent=2, ensure_ascii=False)] on a handle opened
    for writing as text, up to the end of the [with] block. *)
Definition json_dump (tasks : value) (path : string) : M unit :=
  match utf8_encode (dumps tasks) with
  | Some data => put path data
  | None => put path (flushed (dumps tasks)) ;;; raise UnicodeEncodeError
  end.

(** [save_tasks(tasks, path)] *)
Definition save_tasks (tasks : value) (path : string) : M unit :=
  open_w path ;;;
  json_dump tasks path.

(** The rest of [max(...)] once a first item is known: [cur] is the
    largest so far and stays unless a later item is strictly greater. *)
Fixpoint max_loop (cur : value) (ts : list value) : result value :=
  match ts with
  | [] => Ret cur
  | t :: ts' =>
      rbind (get t k_id (PyInt 0)) (fun x =>
      rbind (py_gt x cur) (fun b =>
      max_loop (if b then x else cur) ts'))
  end.

(** [max((t.get("id", 0) for t in tasks), default=0)]: the generator is
    consumed item by item, so an item is looked at only after the ones
    before it have been compared. *)
Definition max_id (ts : list value) : result value :=
  match ts with
  | [] => Ret (PyInt 0)
  | t :: ts' => rbind (get t k_id (PyInt 0)) (fun x => max_loop x ts')
  end.

(** [add_task(title, desc, path)]; [now] is what [datetime.utcnow()]
    returns during the call. *)
Definition add_task (title desc : str) (path : string) (now : datetime)
  : M unit :=
  tasks <- load_tasks path ;;
  items <- lift (py_iter tasks) ;;
  m <- lift (max_id items) ;;
  i <- lift (add_one m) ;;
  let task := new_task i title desc now in
  tasks' <- lift (append tasks task) ;;
  save_tasks tasks' path ;;;
  print (lit "Added task " ++ format repr i ++ lit ": "
         ++ format repr (PyStr title)).

(** The mark of a finished task, U+2713. *)
Definition check_mark : str := [10003].

(** The line [list_tasks] prints for one task. *)
Definition task_line (t : value) : result str :=
  rbind (get t k_done PyNone) (fun d =>
  let status := if truthy d then check_mark else lit " " in
  rbind (get t k_id PyNone) (fun i =>
  rbind (get t k_title PyNone) (fun ti =>
  rbind (get t k_description (PyStr [])) (fun de =>
  Ret (lit "[" ++ status ++ lit "] " ++ format repr i ++ lit ": "
       ++ format repr ti ++ lit " - " ++ format repr de))))).

Fixpoint list_loop (ts : list value) : M unit :=
  match ts with
  | [] => ret tt
  | t :: ts' =>
      line <- lift (task_line t) ;;
      print line ;;;
      list_loop ts'
  end.

(** [list_tasks(path)] *)
Definition list_tasks (path : string) : M unit :=
  tasks <- load_tasks path ;;
  if negb (truthy tasks) then print (lit "No tasks found.")
  else
    items <- lift (py_iter tasks) ;;
    list_loop items.

(** The list [tasks] after the item at position [i] has been changed in
    place into [t].  Only the items of a list can be changed that way: the
    keys of a dictionary and the characters of a string are not
    dictionaries. *)
Definition stored (tasks : value) (i : nat) (t : value) : value :=
  match tasks with
  | PyList l => PyList (<[i := t]> l)
  | _ => tasks
  end.

(** The loop of [complete_task], at position [i] of [tasks], with the items
    [ts] still to visit. *)
Fixpoint complete_loop (task_id : Z) (path : string) (tasks : value)
    (i : nat) (ts : list value) : M unit :=
  match ts with
  | [] => print (lit "No task found with id " ++ int_str task_id ++ lit ".")
  | t :: ts' =>
      x <- lift (get t k_id PyNone) ;;
      if py_eq x (PyInt task_id) then
        t' <- lift (setitem t k_done (PyBool true)) ;;
        save_tasks (stored tasks i t') path ;;;
        print (lit "Marked task " ++ int_str task_id ++ lit " complete.")
      else complete_loop task_id path tasks (S i) ts'
  end.

(** [complete_task(task_id, path)] *)
Definition complete_task (task_id : Z) (path : string) : M unit :=
  tasks <- load_tasks path ;;
  items <- lift (py_iter tasks) ;;
  complete_loop task_id path tasks 0 items.

(** The file at [path] holds the value [v]: that is what [load_tasks]
    returns. *)
Definition holds (w : world) (path : string) (v : value) : Prop :=
  load_tasks path w = (Ret v, w).

(** A run of [add_task], one call per request [(title, desc, now)]. *)
Fixpoint add_all (path : string) (reqs : list (str * str * datetime))
  : M unit :=
  match reqs with
  | [] => ret tt
  | (title, desc, now) :: reqs' =>
      add_task title desc path now ;;;
      add_all path reqs'
  end.

End Library.

End Todo.

(* ===================================================================== *)
(** ** A JSON reader *)
(* ===================================================================== *)

(** A reader for JSON texts without fractions and exponents, written the
    way [json.loads] scans: no space is skipped before a value, the list
    and dictionary scanners skip it around their items, a key met twice
    keeps its first place and its last value. *)
Module Reader.
Import Text Py.

Definition is_ws (c : N) : bool :=
  (c =? 32) || (c =? 10) || (c =? 13) || (c =? 9).

Fixpoint skip_ws (s : str) : str :=
  match s with
  | c :: s' => if is_ws c then skip_ws s' else s
  | [] => []
  end.

Definition is_digit (c : N) : bool := (48 <=? c) && (c <=? 57).

Definition hex_val (c : N) : option N :=
  if (48 <=? c) && (c <=? 57) then Some (c - 48)
  else if (97 <=? c) && (c <=? 102) then Some (c - 87)
  else if (65 <=? c) && (c <=? 70) then Some (c - 55)
  else None.

Definition hex4 (a b c d : N) : option N :=
  match hex_val a, hex_val b, hex_val c, hex_val d with
  | Some x, Some y, Some z, Some t => Some (((x * 16 + y) * 16 + z) * 16 + t)
  | _, _, _, _ => None
  end.

Definition simple_escape (e : N) : option N :=
  if e =? 34 then Some 34
  else if e =? 92 then Some 92
  else if e =? 47 then Some 47
  else if e =? 98 then Some 8
  else if e =? 102 then Some 12
  else if e =? 110 then Some 10
  else if e =? 114 then Some 13
  else if e =? 116 then Some 9
  else None.

Definition is_high (c : N) : bool := (0xD800 <=? c) && (c <=? 0xDBFF).
Definition is_low (c : N) : bool := (0xDC00 <=? c) && (c <=? 0xDFFF).

(** [peek c s]: what follows [c] when [s] starts with [c]. *)
Definition peek (c : N) (s : str) : option str :=
  match s with
  | x :: r => if x =? c then Some r else None
  | [] => None
  end.

(** The low half of a surrogate pair, if the text goes on with one. *)
Definition low_escape (s : str) : option N :=
  match s with
  | x :: y :: a :: b :: c :: d :: _ =>
      if (x =? 92) && (y =? 117) then
        match hex4 a b c d with
        | Some lo => if is_low lo then Some lo else None
        | None => None
        end
      else None
  | _ => None
  end.

(** The characters of a string up to its closing quote, and what follows
    the quote.  A control character must be escaped. *)
Fixpoint scan_chars (s : str) : option (str * str) :=
  match s with
  | [] => None
  | c :: r =>
      if c =? 34 then Some ([], r)
      else if c =? 92 then
        match r with
        | [] => None
        | e :: r1 =>
            if e =? 117 then
              match r1 with
              | a :: b :: c' :: d :: r5 =>
                  match hex4 a b c' d with
                  | None => None
                  | Some u =>
                      match (if is_high u then low_escape r5 else None), r5 with
                      | Some lo, _ :: _ :: _ :: _ :: _ :: _ :: r11 =>
                          prod_map (cons (0x10000 + (u - 0xD800) * 1024
                                          + (lo - 0xDC00))) id
                            <$> scan_chars r11
                      | _, _ => prod_map (cons u) id <$> scan_chars r5
                      end
                  end
              | _ => None
              end
            else
              match simple_escape e with
              | Some x => prod_map (cons x) id <$> scan_chars r1
              | None => None
              end
        end
      else if c <? 32 then None
      else prod_map (cons c) id <$> scan_chars r
  end.

(** A run of decimal digits, as a [Decimal.uint], and what follows it. *)
Fixpoint scan_digits (s : str) : uint * str :=
  match s with
  | c :: r =>
      if is_digit c then
        let '(d, r') := scan_digits r in
        ((match c with
          | 48 => D0 | 49 => D1 | 50 => D2 | 51 => D3 | 52 => D4
          | 53 => D5 | 54 => D6 | 55 => D7 | 56 => D8 | _ => D9
          end) d, r')
      else (Nil, s)
  | [] => (Nil, [])
  end.

(** What may not follow the digits of an integer: the start of a fraction
    or of an exponent.  [json.loads] reads such a number as a [float]; this
    reader has no value for it and is only applied to texts without one. *)
Definition float_mark (s : str) : bool :=
  match s with
  | c :: _ => (c =? 46) || (c =? 101) || (c =? 69)
  | [] => false
  end.

(** The digits of a JSON integer: one zero, or no zero in front. *)
Definition scan_nat (s : str) : option (uint * str) :=
  let '(d, r) := scan_digits s in
  if uint_eq_dec (unorm d) d then
    if float_mark r then None else Some (d, r)
  else None.

Definition starts (p s : str) : option str :=
  if decide (take (length p) s = p) then Some (drop (length p) s) else None.

Definition dict_of_pairs (ps : list (str * value)) : list (str * value) :=
  foldl (fun d kv => dict_set (fst kv) (snd kv) d) [] ps.

(** Fuel that is enough to read back what the encoder writes for [v]. *)
Fixpoint weight (v : value) : nat :=
  match v with
  | PyList l => S (fold_right (fun x n => S (weight x + n)) O l)
  | PyDict d => S (fold_right (fun kv n => S (weight (snd kv) + n)) O d)
  | _ => 1
  end.

Fixpoint scan_value (fuel : nat) (s : str) : option (value * str) :=
  match fuel with
  | O => None
  | S n =>
      match s with
      | [] => None
      | c :: r =>
          if c =? 34 then prod_map PyStr id <$> scan_chars r
          else if c =? 91 then
            match peek 93 (skip_ws r) with
            | Some r' => Some (PyList [], r')
            | None => prod_map PyList id <$> scan_items n (skip_ws r)
            end
          else if c =? 123 then
            match peek 125 (skip_ws r) with
            | Some r' => Some (PyDict [], r')
            | None => prod_map (fun ps => PyDict (dict_of_pairs ps)) id
                        <$> scan_members n (skip_ws r)
            end
          else if c =? 45 then
            prod_map (fun d => PyInt (Z.of_int (Neg d))) id <$> scan_nat r
          else if is_digit c then
            prod_map (fun d => PyInt (Z.of_int (Pos d))) id <$> scan_nat s
          else
            match starts (lit "null") s, starts (lit "true") s,
                  starts (lit "false") s with
            | Some r', _, _ => Some (PyNone, r')
            | _, Some r', _ => Some (PyBool true, r')
            | _, _, Some r' => Some (PyBool false, r')
            | _, _, _ => None
            end
      end
  end
with scan_items (fuel : nat) (s : str) : option (list value * str) :=
  match fuel with
  | O => None
  | S n =>
      match scan_value n s with
      | None => None
      | Some (v, r) =>
          match peek 93 (skip_ws r), peek 44 (skip_ws r) with
          | Some r', _ => Some ([v], r')
          | None, Some r' => prod_map (cons v) id <$> scan_items n (skip_ws r')
          | None, None => None
          end
      end
  end
with scan_members (fuel : nat) (s : str)
  : option (list (str * value) * str) :=
  match fuel with
  | O => None
  | S n =>
      match peek 34 s with
      | None => None
      | Some r =>
          match scan_chars r with
          | None => None
          | Some (k, r1) =>
              match peek 58 (skip_ws r1) with
              | None => None
              | Some r2 =>
                  match scan_value n (skip_ws r2) with
                  | None => None
                  | Some (v, r3) =>
                      match peek 125 (skip_ws r3), peek 44 (skip_ws r3) with
                      | Some r4, _ => Some ([(k, v)], r4)
                      | None, Some r4 =>
                          prod_map (cons (k, v)) id
                            <$> scan_members n (skip_ws r4)
                      | None, None => None
                      end
                  end
              end
          end
      end
  end.

(** What the encoder writes after a value: nothing, a comma or a line
    break. *)
Definition ends_value (rest : str) : Prop :=
  match rest with
  | [] => True
  | c :: _ => c = 44 \/ c = 10
  end.

(** [v] is read back from what the encoder writes for it, at any depth
    and whatever comes next. *)
Definition reads_back (v : value) : Prop :=
  forall lvl rest fuel,
    ends_value rest -> (weight v <= fuel)%nat ->
    scan_value fuel (Json.encode lvl v ++ rest) = Some (v, rest).

(** The value of a whole text: space may surround it, nothing else. *)
Definition loads (s : str) : option value :=
  match scan_value (S (length s)) (skip_ws s) with
  | Some (v, r) => if decide (skip_ws r = []) then Some v else None
  | None => None
  end.

End Reader.

(* ===================================================================== *)
(** ** Sample data *)
(* ===================================================================== *)

(** The collections of [tests/test_todo.py], used below to run the
    statements on concrete inputs. *)
Module Sample.
Import Text Py Json Sys Todo.

Definition path : string := "tasks.json".

(** A stored task, with the five keys in the order [add_task] writes
    them. *)
Definition task (i : Z) (title desc created : str) (done : bool) : value :=
  PyDict [ (lit "id", PyInt i);
           (lit "title", PyStr title);
           (lit "description", PyStr desc);
           (lit "created_at", PyStr created);
           (lit "done", PyBool done) ].

(** The fixture [populated_tasks_file]. *)
Definition populated : list value :=
  [ task 1 (lit "Buy groceries") (lit "Milk, bread, eggs")
      (lit "2026-02-09T10:00:00Z") false;
    task 2 (lit "Fix bug") (lit "ID comparison in complete_task")
      (lit "2026-02-09T11:00:00Z") false;
    task 3 (lit "Write tests") (lit "Unit tests for todo app")
      (lit "2026-02-09T12:00:00Z") true ].

(** The collection of [test_complete_task_with_large_id]. *)
Definition large : list value :=
  [ task 300 (lit "Large ID task") [] (lit "2026-02-09T10:00:00Z") false ].

(** Two tasks with the same id, and one before them. *)
Definition twins : list value :=
  [ task 1 (lit "a") [] (lit "2026-02-09T10:00:00Z") false;
    task 2 (lit "b") [] (lit "2026-02-09T10:00:00Z") false;
    task 2 (lit "c") [] (lit "2026-02-09T10:00:00Z") false ].

(** Ids with a gap. *)
Definition gapped : list value :=
  [ task 1 (lit "a") [] (lit "2026-02-09T10:00:00Z") false;
    task 5 (lit "b") [] (lit "2026-02-09T10:00:00Z") true ].

(** A record without an id next to one with an id. *)
Definition partial : list value :=
  [ PyDict [ (lit "title", PyStr (lit "no id")) ];
    task 4 (lit "b") [] (lit "2026-02-09T10:00:00Z") false ].

(** The strings of [test_add_task_with_special_characters]: the title ends
    with U+2615, both hold U+00E9 and the description U+00F3. *)
Definition cafe_title : str := lit "Buy caf" ++ [233] ++ lit " " ++ [9749].
Definition cafe_desc : str := lit "Descripci" ++ [243] ++ lit "n: caf" ++ [233].

Definition cafe : list value :=
  [ task 1 cafe_title cafe_desc (lit "2026-02-09T10:00:00Z") false ].

Definition noon : datetime := DateTime 2026 2 9 12 0 0 0.
Definition later : datetime := DateTime 2026 2 9 12 30 15 250000.

(** The three calls of the scenario of the specification. *)
Definition three_adds : list (str * str * datetime) :=
  [ (lit "Buy groceries", lit "Milk, bread, eggs", noon);
    (lit "Fix bug", [], noon);
    (lit "Write tests", [], later) ].

(** The bytes of the file that holds [v]. *)
Definition file_of (v : value) : list byte :=
  default [] (utf8_encode (dumps v)).

(** A world with one readable and writable file, which holds [v]. *)
Definition world_with (v : value) : world :=
  World {[ path := File true true (file_of v) ]} [].

(** A world without any file. *)
Definition empty_world : world := World ∅ [].

(** A world where the file holding [v] may be read and not written. *)
Definition read_only_world (v : value) : world :=
  World {[ path := File true false (file_of v) ]} [].

(** A world where the path is a directory. *)
Definition directory_world : world := World {[ path := Dir ]} [].

(** A world where the file is one byte that no UTF-8 text contains. *)
Definition binary_world : world :=
  World {[ path := File true true ["255"%byte] ]} [].

(** A world where the file holds a text that is not JSON (the one of
    [test_load_tasks_from_invalid_json]). *)
Definition garbled_world : world :=
  World {[ path := File true true
                     (default [] (utf8_encode (lit "invalid json {"))) ]} [].

(** Stand-ins for the two parameters no statement depends on. *)
Definition no_repr (v : value) : str := [].
Definition no_bytes (s : str) : list byte := [].

(** The five functions with the reader of this file for [json.loads]. *)
Definition load_tasks := Todo.load_tasks Reader.loads.
Definition save_tasks := Todo.save_tasks no_bytes.
Definition add_task := Todo.add_task Reader.loads no_repr no_bytes.
Definition list_tasks := Todo.list_tasks Reader.loads no_repr.
Definition complete_task := Todo.complete_task Reader.loads no_bytes.

(** The world a computation leaves. *)
Definition after {A} (m : M A) (w : world) : world := snd (m w).

(** The scenario of the specification: three tasks are added, the third
    is completed, the list is printed, and an id that does not exist is
    completed. *)
Definition scenario : M unit :=
  bind (add_task (lit "Buy groceries") (lit "Milk, bread, eggs") path noon)
    (fun _ =>
  bind (add_task (lit "Fix bug") [] path noon) (fun _ =>
  bind (add_task (lit "Write tests") [] path later) (fun _ =>
  bind (complete_task 3 path) (fun _ =>
  bind (list_tasks path) (fun _ =>
  complete_task 999 path))))).

(** A title with a lone surrogate, which is not text. *)
Definition broken : list value :=
  [ task 1 [0xD800] [] (lit "2026-02-09T10:00:00Z") false ].

End Sample.

(* ===================================================================== *)
(** * Properties *)
(* ===================================================================== *)

Import Text Py Json Sys Todo Reader.

(* ===================================================================== *)
(** ** UTF-8 and line ends *)
(* ===================================================================== *)


Lemma b8_to_N n : n < 256 -> Byte.to_N (b8 n) = n.
Proof.
  intros Hn. unfold b8. destruct (Byte.of_N n) as [b|] eqn:E; simpl.
  - now apply Byte.to_of_N.
  - apply Byte.of_N_None_iff in E. lia.
Qed.

(** The six-bit groups of a code point. *)
Lemma sextets c :
  c = c / 64 * 64 + c mod 64 /\
  c = c / 4096 * 4096 + (c / 64) mod 64 * 64 + c mod 64 /\
  c = c / 262144 * 262144 + (c / 4096) mod 64 * 4096
      + (c / 64) mod 64 * 64 + c mod 64 /\
  c mod 64 < 64 /\ (c / 64) mod 64 < 64 /\ (c / 4096) mod 64 < 64.
Proof.
  pose proof (N.div_mod c 64).
  pose proof (N.div_mod (c / 64) 64).
  pose proof (N.div_mod (c / 4096) 64).
  pose proof (N.Div0.div_div c 64 64).
  pose proof (N.Div0.div_div c 4096 64).
  pose proof (N.mod_lt c 64).
  pose proof (N.mod_lt (c / 64) 64).
  pose proof (N.mod_lt (c / 4096) 64).
  change (64 * 64) with 4096 in *. change (4096 * 64) with 262144 in *.
  lia.
Qed.

Ltac bool_cases :=
  repeat match goal with
  | |- context [?a <? ?b] => destruct (N.ltb_spec a b); try lia
  | |- context [?a <=? ?b] => destruct (N.leb_spec a b); try lia
  end.

Lemma utf8_decode_cons b0 r0 :
  utf8_decode (b0 :: r0) =
  let n0 := Byte.to_N b0 in
  if n0 <? 0x80 then cons n0 <$> utf8_decode r0
  else if (0xC2 <=? n0) && (n0 <? 0xE0) then
    match r0 with
    | b1 :: r1 =>
        if cont b1
        then cons ((n0 - 0xC0) * 64 + tail6 b1) <$> utf8_decode r1
        else None
    | _ => None
    end
  else if (0xE0 <=? n0) && (n0 <? 0xF0) then
    match r0 with
    | b1 :: b2 :: r2 =>
        let c := (n0 - 0xE0) * 4096 + tail6 b1 * 64 + tail6 b2 in
        if cont b1 && cont b2 && (0x800 <=? c) && scalar c
        then cons c <$> utf8_decode r2
        else None
    | _ => None
    end
  else if (0xF0 <=? n0) && (n0 <? 0xF5) then
    match r0 with
    | b1 :: b2 :: b3 :: r3 =>
        let c := (n0 - 0xF0) * 262144 + tail6 b1 * 4096
                 + tail6 b2 * 64 + tail6 b3 in
        if cont b1 && cont b2 && cont b3 && (0x10000 <=? c) && scalar c
        then cons c <$> utf8_decode r3
        else None
    | _ => None
    end
  else None.
Proof. reflexivity. Qed.

Lemma utf8_decode_char c bs rest :
  utf8_encode_char c = Some bs ->
  utf8_decode (bs ++ rest) = cons c <$> utf8_decode rest.
Proof.
  unfold utf8_encode_char. intros H.
  destruct (sextets c) as (E2 & E3 & E4 & L0 & L1 & L2).
  set (m0 := c mod 64) in *. set (m1 := (c / 64) mod 64) in *.
  set (m2 := (c / 4096) mod 64) in *. set (q1 := c / 64) in *.
  set (q2 := c / 4096) in *. set (q3 := c / 262144) in *.
  clearbody m0 m1 m2 q1 q2 q3.
  destruct (N.ltb_spec c 0x80).
  { injection H as <-. cbn [app]. rewrite utf8_decode_cons. cbv zeta.
    rewrite b8_to_N by lia.
    destruct (N.ltb_spec c 128); [reflexivity | lia]. }
  destruct (N.ltb_spec c 0x800).
  { injection H as <-. cbn [app]. rewrite utf8_decode_cons. cbv zeta.
    unfold cont, tail6. rewrite !b8_to_N by lia.
    replace ((192 + q1 - 192) * 64 + (128 + m0 - 128)) with c by lia.
    bool_cases; reflexivity. }
  destruct (N.ltb_spec c 0x10000).
  { destruct (N.leb_spec 0xD800 c); destruct (N.ltb_spec c 0xE000);
      cbn [andb] in H; try discriminate; injection H as <-;
      cbn [app]; rewrite utf8_decode_cons; cbv zeta;
      unfold cont, tail6, scalar; rewrite !b8_to_N by lia.
    all: replace ((224 + q2 - 224) * 4096 + (128 + m1 - 128) * 64
             + (128 + m0 - 128)) with c by lia.
    all: bool_cases; reflexivity. }
  destruct (N.ltb_spec c 0x110000); [|discriminate].
  injection H as <-. cbn [app]. rewrite utf8_decode_cons. cbv zeta.
  unfold cont, tail6, scalar. rewrite !b8_to_N by lia.
  replace ((240 + q3 - 240) * 262144 + (128 + m2 - 128) * 4096
           + (128 + m1 - 128) * 64 + (128 + m0 - 128)) with c by lia.
  bool_cases; reflexivity.
Qed.

Lemma utf8_decode_encode s bs :
  utf8_encode s = Some bs -> utf8_decode bs = Some s.
Proof.
  revert bs. induction s as [|c s IH]; intros bs H; simpl in H.
  - now injection H as <-.
  - destruct (utf8_encode_char c) as [b1|] eqn:E1; [|discriminate].
    destruct (utf8_encode s) as [b2|] eqn:E2; [|discriminate].
    injection H as <-. rewrite (utf8_decode_char _ _ _ E1).
    now rewrite (IH _ eq_refl).
Qed.

Lemma utf8_encode_char_scalar c :
  scalar c = true -> is_Some (utf8_encode_char c).
Proof.
  unfold scalar, utf8_encode_char. intros H.
  repeat match goal with
  | |- context [?a <? ?b] => destruct (N.ltb_spec a b)
  | |- context [?a <=? ?b] => destruct (N.leb_spec a b)
  | H : context [?a <? ?b] |- _ => destruct (N.ltb_spec a b)
  | H : context [?a <=? ?b] |- _ => destruct (N.leb_spec a b)
  end; cbn in *; try discriminate; try lia; eauto.
Qed.

Lemma utf8_encode_total s : encodable s -> is_Some (utf8_encode s).
Proof.
  induction 1 as [|c s Hc _ IH]; simpl; [eauto|].
  destruct (utf8_encode_char_scalar c Hc) as [b1 ->].
  destruct IH as [b2 ->]. eauto.
Qed.

(** A text without carriage return is read as it is. *)
Lemma universal_newlines_id s : Forall (fun c => c <> 13) s -> universal_newlines s = s.
Proof.
  induction 1 as [|c s Hc _ IH]; [reflexivity|].
  cbn [universal_newlines]. rewrite IH.
  destruct c as [|p]; [reflexivity|].
  do 4 (destruct p as [p|p|]; try reflexivity). congruence.
Qed.


(* ===================================================================== *)
(** ** Values *)
(* ===================================================================== *)

(** Induction on values that reaches the items of lists and dictionaries. *)
Lemma value_induction (P : value -> Prop) :
  P PyNone -> (forall b, P (PyBool b)) -> (forall z, P (PyInt z)) ->
  (forall s, P (PyStr s)) ->
  (forall l, Forall P l -> P (PyList l)) ->
  (forall d, Forall (fun kv => P (snd kv)) d -> P (PyDict d)) ->
  forall v, P v.
Proof.
  intros HN HB HI HS HL HD.
  fix IH 1. intros [ | b | z | s | l | d ].
  - exact HN.
  - apply HB.
  - apply HI.
  - apply HS.
  - apply HL. induction l as [|x l IHl]; constructor; [apply IH | exact IHl].
  - apply HD. induction d as [|[k x] d IHd]; constructor; [apply IH | exact IHd].
Qed.

Lemma wf_value_list l : wf_value (PyList l) <-> Forall wf_value l.
Proof.
  induction l as [|x l IH]; simpl.
  - split; auto.
  - simpl in IH. rewrite IH. split.
    + intros [? ?]. now constructor.
    + now inversion 1.
Qed.

Lemma wf_value_dict d :
  wf_value (PyDict d) <-> NoDup (keys d) /\ Forall (fun kv => wf_value (snd kv)) d.
Proof.
  simpl. apply and_iff_compat_l.
  induction d as [|[k x] d IH]; simpl.
  - split; auto.
  - rewrite IH. split.
    + intros [? ?]. now constructor.
    + now inversion 1.
Qed.

(* ===================================================================== *)
(** ** The characters the encoder writes *)
(* ===================================================================== *)

Section Written.
Variable P : N -> Prop.
Hypothesis P_ascii : forall c, c < 128 -> c <> 13 -> P c.

Lemma written_lit (s : string) :
  forallb (fun c => (c <? 128) && negb (c =? 13)) (lit s) = true ->
  Forall P (lit s).
Proof.
  intros H. apply Forall_forall. intros c Hc.
  rewrite forallb_forall in H. apply list_elem_of_In in Hc. specialize (H c Hc).
  apply andb_true_iff in H as [H1 H2].
  apply N.ltb_lt in H1. apply negb_true_iff, N.eqb_neq in H2. auto.
Qed.

Lemma written_uint d : Forall P (uint_str d).
Proof. induction d; simpl; constructor; auto; apply P_ascii; lia. Qed.

Lemma written_int z : Forall P (int_str z).
Proof.
  unfold int_str. destruct (Z.to_int z).
  - apply written_uint.
  - constructor; [apply P_ascii; lia | apply written_uint].
Qed.

Lemma written_hex n : n < 16 -> P (hex_digit n).
Proof.
  intros H. unfold hex_digit. destruct (N.ltb_spec n 10); apply P_ascii; lia.
Qed.

Lemma written_escape c : (32 <= c -> P c) -> Forall P (escape_char c).
Proof.
  intros H. unfold escape_char.
  repeat match goal with
  | |- context [?a =? ?b] => destruct (N.eqb_spec a b)
  end; try (apply written_lit; reflexivity).
  - repeat constructor; apply P_ascii; lia.
  - destruct (N.ltb_spec c 32).
    + apply Forall_app; split; [apply written_lit; reflexivity|].
      assert (c / 16 < 16) by (apply N.Div0.div_lt_upper_bound; lia).
      assert (c mod 16 < 16) by (apply N.mod_lt; lia).
      repeat constructor; now apply written_hex.
    + repeat constructor. auto.
Qed.

Lemma written_str s : Forall (fun c => 32 <= c -> P c) s -> Forall P (encode_str s).
Proof.
  intros H. unfold encode_str. constructor; [apply P_ascii; lia|].
  apply Forall_app; split; [|repeat constructor; apply P_ascii; lia].
  induction H as [|c s Hc _ IH]; simpl; [constructor|].
  apply Forall_app; split; [now apply written_escape | exact IH].
Qed.

Lemma written_newline_indent n : Forall P (newline_indent n).
Proof.
  unfold newline_indent. constructor; [apply P_ascii; lia|].
  apply Forall_forall. intros c Hc. apply list_elem_of_In, repeat_spec in Hc.
  subst. apply P_ascii; lia.
Qed.

Lemma written_join sep parts :
  Forall P sep -> Forall (Forall P) parts -> Forall P (join sep parts).
Proof.
  intros Hs. induction 1 as [|p ps Hp _ IH]; simpl; [constructor|].
  destruct ps; [exact Hp|].
  apply Forall_app; split; [exact Hp|]. apply Forall_app; split; auto.
Qed.

Definition raw_ok (s : str) : Prop := Forall (fun c => 32 <= c -> P c) s.

Lemma written_encode v :
  Forall raw_ok (strings_of v) -> forall lvl, Forall P (encode lvl v).
Proof.
  induction v as [ | [|] | z | s | l IH | d IH ] using value_induction;
    intros Hs lvl; cbn [encode];
    try (apply written_lit; reflexivity).
  - apply written_int.
  - apply written_str. now inversion Hs.
  - destruct l as [|x l]; [apply written_lit; reflexivity|].
    constructor; [apply P_ascii; lia|].
    repeat (apply Forall_app; split); try apply written_newline_indent.
    + apply written_join.
      * constructor; [apply P_ascii; lia | apply written_newline_indent].
      * apply Forall_map. cbn [strings_of] in Hs.
        rewrite Forall_flat_map in Hs.
        eapply Forall_impl; [apply Forall_and; split; [exact IH | exact Hs] |].
        intros y [Hy1 Hy2]. auto.
    + repeat constructor. apply P_ascii; lia.
  - destruct d as [|kx d]; [apply written_lit; reflexivity|].
    constructor; [apply P_ascii; lia|].
    repeat (apply Forall_app; split); try apply written_newline_indent.
    + apply written_join.
      * constructor; [apply P_ascii; lia | apply written_newline_indent].
      * apply Forall_map. cbn [strings_of] in Hs.
        rewrite Forall_flat_map in Hs.
        eapply Forall_impl; [apply Forall_and; split; [exact IH | exact Hs] |].
        intros [k y] [Hy1 Hy2]. cbn [fst snd] in *. inversion Hy2; subst.
        repeat (apply Forall_app; split); auto.
        -- now apply written_str.
        -- apply written_lit; reflexivity.
    + repeat constructor. apply P_ascii; lia.
Qed.

End Written.

(** The encoder never writes a carriage return. *)
Lemma dumps_no_cr v : Forall (fun c => c <> 13) (dumps v).
Proof.
  apply written_encode; [auto|].
  apply Forall_forall. intros s _. apply Forall_forall. intros c _. lia.
Qed.

(** The text of an encodable value is encodable. *)
Lemma dumps_encodable v : encodable_value v -> encodable (dumps v).
Proof.
  intros H. apply written_encode.
  - intros c Hc _. unfold scalar. apply orb_true_iff. left. apply N.ltb_lt. lia.
  - eapply Forall_impl; [exact H|]. intros s Hs.
    eapply Forall_impl; [exact Hs|]. auto.
Qed.


(* ===================================================================== *)
(** ** The reader inverts the encoder *)
(* ===================================================================== *)

(** *** White space *)

Lemma skip_ws_solid c s : is_ws c = false -> skip_ws (c :: s) = c :: s.
Proof. intros H. cbn [skip_ws]. now rewrite H. Qed.

Lemma skip_ws_spaces n s : skip_ws (repeat 32 n ++ s) = skip_ws s.
Proof. induction n as [|n IH]; [reflexivity | exact IH]. Qed.

Lemma skip_ws_newline_indent lvl s : skip_ws (newline_indent lvl ++ s) = skip_ws s.
Proof. unfold newline_indent. cbn [app skip_ws is_ws N.eqb orb]. apply skip_ws_spaces. Qed.

(** *** Strings *)

Lemma scan_chars_raw c r :
  c <> 34 -> c <> 92 -> 32 <= c ->
  scan_chars (c :: r) = prod_map (cons c) id <$> scan_chars r.
Proof.
  intros H1 H2 H3. cbn [scan_chars].
  apply N.eqb_neq in H1, H2. rewrite H1, H2.
  destruct (N.ltb_spec c 32); [lia | reflexivity].
Qed.

Lemma scan_chars_escape_char c r :
  scan_chars (escape_char c ++ r) = prod_map (cons c) id <$> scan_chars r.
Proof.
  destruct (N.ltb_spec c 32) as [Hc|Hc].
  - destruct c as [|p]; [reflexivity|].
    do 5 (destruct p as [p|p|]; try reflexivity); lia.
  - unfold escape_char.
    destruct (N.eqb_spec c 34) as [->|H34]; [reflexivity|].
    destruct (N.eqb_spec c 92) as [->|H92]; [reflexivity|].
    repeat match goal with
    | |- context [c =? ?b] => destruct (N.eqb_spec c b); [lia|]
    end.
    destruct (N.ltb_spec c 32); [lia|].
    cbn [app]. now apply scan_chars_raw.
Qed.

Lemma scan_chars_escape s rest :
  scan_chars (flat_map escape_char s ++ 34 :: rest) = Some (s, rest).
Proof.
  induction s as [|c s IH]; [reflexivity|].
  cbn [flat_map]. rewrite <- app_assoc, scan_chars_escape_char, IH.
  reflexivity.
Qed.

(** *** Integers *)

Lemma scan_digits_uint d rest :
  ends_value rest -> scan_digits (uint_str d ++ rest) = (d, rest).
Proof.
  intros Hr. induction d; cbn [uint_str app];
    try (cbn [scan_digits is_digit N.leb N.compare Pos.compare Pos.compare_cont andb];
         rewrite IHd; reflexivity).
  destruct rest as [|c r]; [reflexivity|].
  destruct Hr as [-> | ->]; reflexivity.
Qed.

Lemma float_mark_ends rest : ends_value rest -> float_mark rest = false.
Proof. destruct rest as [|c r]; [reflexivity|]. intros [-> | ->]; reflexivity. Qed.

Lemma scan_nat_uint d rest :
  unorm d = d -> ends_value rest -> scan_nat (uint_str d ++ rest) = Some (d, rest).
Proof.
  intros Hd Hr. unfold scan_nat. rewrite scan_digits_uint by exact Hr.
  destruct (uint_eq_dec (unorm d) d); [|contradiction].
  now rewrite float_mark_ends.
Qed.

Lemma to_uint_shape p : unorm (Pos.to_uint p) = Pos.to_uint p.
Proof.
  rewrite <- DecimalN.Unsigned.to_of.
  change (Pos.to_uint p) with (N.to_uint (Npos p)) at 1.
  now rewrite DecimalN.Unsigned.of_to.
Qed.

Lemma to_int_shape z :
  match Z.to_int z with Pos d | Neg d => unorm d = d /\ d <> Nil end.
Proof.
  destruct z; cbn [Z.to_int].
  - split; [reflexivity | discriminate].
  - split; [apply to_uint_shape | apply DecimalPos.Unsigned.to_uint_nonnil].
  - split; [apply to_uint_shape | apply DecimalPos.Unsigned.to_uint_nonnil].
Qed.

Lemma scan_value_int z rest n :
  ends_value rest ->
  scan_value (S n) (int_str z ++ rest) = Some (PyInt z, rest).
Proof.
  intros Hr. pose proof (to_int_shape z) as Hz.
  pose proof (DecimalZ.of_to z) as Hof. unfold int_str.
  destruct (Z.to_int z) as [d|d]; destruct Hz as [Hn Hnil].
  - pose proof (scan_nat_uint d rest Hn Hr) as Hs.
    destruct d; try contradiction;
      cbn [uint_str app] in *; cbn [scan_value N.eqb Pos.eqb is_digit N.leb N.compare Pos.compare Pos.compare_cont andb];
      rewrite Hs; cbn [fmap option_fmap option_map prod_map fst snd id]; now rewrite Hof.
  - cbn [app scan_value N.eqb Pos.eqb].
    rewrite scan_nat_uint by assumption.
    cbn [fmap option_fmap option_map prod_map fst snd id]. now rewrite Hof.
Qed.


(** *** The first character of a value *)

Lemma encode_head v lvl :
  exists c r, encode lvl v = c :: r /\ is_ws c = false /\ (c =? 93) = false.
Proof.
  destruct v as [ | [|] | z | s | [|x l] | [|kx d] ]; cbn [encode];
    try (do 2 eexists; split; [reflexivity | split; reflexivity]).
  pose proof (to_int_shape z) as Hz. unfold int_str.
  destruct (Z.to_int z) as [d|d]; destruct Hz as [_ Hnil].
  - destruct d; try contradiction; cbn [uint_str];
      do 2 eexists; (split; [reflexivity | split; reflexivity]).
  - do 2 eexists; split; [reflexivity | split; reflexivity].
Qed.

Lemma skip_ws_encode v lvl s : skip_ws (encode lvl v ++ s) = encode lvl v ++ s.
Proof.
  destruct (encode_head v lvl) as (c & r & -> & Hc & _).
  now apply skip_ws_solid.
Qed.

Lemma peek_encode v lvl s : peek 93 (encode lvl v ++ s) = None.
Proof.
  destruct (encode_head v lvl) as (c & r & -> & _ & Hc).
  cbn [app peek]. now rewrite Hc.
Qed.

Lemma join_cons sep p q ps : join sep (p :: q :: ps) = p ++ sep ++ join sep (q :: ps).
Proof. reflexivity. Qed.

(** *** Lists *)

Lemma scan_items_join l :
  Forall reads_back l -> l <> [] ->
  forall lvl rest fuel,
    ends_value rest ->
    (fold_right (fun x n => S (weight x + n)) O l <= fuel)%nat ->
    scan_items fuel
      (join (44 :: newline_indent (S lvl)) (map (encode (S lvl)) l)
       ++ newline_indent lvl ++ 93 :: rest) = Some (l, rest).
Proof.
  induction 1 as [|x l Hx Hl IH]; [congruence|].
  intros _ lvl rest fuel Hr Hfuel. cbn [fold_right] in Hfuel.
  destruct fuel as [|n]; [lia|]. cbn [scan_items].
  destruct l as [|y l'].
  - cbn [map join]. rewrite Hx by (reflexivity || (cbn; auto) || lia).
    rewrite skip_ws_newline_indent. reflexivity.
  - cbn [map]. rewrite join_cons, <- !app_assoc.
    rewrite Hx by (try (cbn; auto); lia).
    cbn [app]. rewrite skip_ws_solid by reflexivity.
    cbn [peek N.eqb Pos.eqb]. rewrite skip_ws_newline_indent.
    change (encode (S lvl) y :: map (encode (S lvl)) l')
      with (map (encode (S lvl)) (y :: l')).
    assert (Hj : skip_ws (join (44 :: newline_indent (S lvl)) (map (encode (S lvl)) (y :: l'))
                          ++ newline_indent lvl ++ 93 :: rest)
                 = join (44 :: newline_indent (S lvl)) (map (encode (S lvl)) (y :: l'))
                          ++ newline_indent lvl ++ 93 :: rest).
    { destruct l'; cbn [map]; [cbn [join]; apply skip_ws_encode|].
      rewrite join_cons, <- !app_assoc. apply skip_ws_encode. }
    rewrite Hj, IH by (auto; try discriminate; lia). reflexivity.
Qed.

(** *** Dictionaries *)

Lemma dict_set_fresh k v d : k ∉ keys d -> dict_set k v d = d ++ [(k, v)].
Proof.
  induction d as [|[k' v'] d IH]; [reflexivity|]. cbn [keys map fst].
  intros Hk. apply not_elem_of_cons in Hk as [Hne Hk]. cbn [dict_set].
  destruct (decide (k = k')); [contradiction|]. cbn [app]. now rewrite IH.
Qed.

Lemma dict_of_pairs_id d : NoDup (keys d) -> dict_of_pairs d = d.
Proof.
  unfold dict_of_pairs. intros H.
  enough (G : forall acc, NoDup (keys (acc ++ d)) ->
              foldl (fun d kv => dict_set (fst kv) (snd kv) d) acc d = acc ++ d)
    by exact (G [] H).
  clear H. induction d as [|[k v] d IH]; intros acc H; cbn [foldl].
  - now rewrite app_nil_r.
  - cbn [fst snd]. rewrite dict_set_fresh.
    + rewrite IH; rewrite <- app_assoc; [reflexivity | exact H].
    + unfold keys in *. rewrite map_app in H. apply NoDup_app in H as (_ & H & _).
      intros Hin. apply (H k Hin). cbn. left.
Qed.

Lemma scan_members_join d :
  Forall (fun kv => reads_back (snd kv)) d -> d <> [] ->
  forall lvl rest fuel,
    ends_value rest ->
    (fold_right (fun kv n => S (weight (snd kv) + n)) O d <= fuel)%nat ->
    scan_members fuel
      (join (44 :: newline_indent (S lvl))
         (map (fun kv => encode_str (fst kv) ++ lit ": " ++ encode (S lvl) (snd kv)) d)
       ++ newline_indent lvl ++ 125 :: rest) = Some (d, rest).
Proof.
  induction 1 as [|[k x] d Hx Hd IH]; [congruence|].
  intros _ lvl rest fuel Hr Hfuel. cbn [fold_right fst snd] in *.
  destruct fuel as [|n]; [lia|]. cbn [scan_members].
  destruct d as [|[k' y] d'].
  - cbn [map join fst snd]. unfold encode_str. cbn [app peek N.eqb Pos.eqb].
    rewrite <- !app_assoc. cbn [app]. rewrite scan_chars_escape.
    change (lit ": ") with [58; 32] at 1. cbn [app].
    cbn [skip_ws is_ws N.eqb Pos.eqb orb peek]. rewrite skip_ws_encode.
    rewrite Hx by (try (cbn; auto); lia).
    rewrite skip_ws_newline_indent. reflexivity.
  - cbn [map]. rewrite join_cons. cbn [fst snd]. unfold encode_str at 1.
    cbn [app peek N.eqb Pos.eqb]. rewrite <- !app_assoc. cbn [app].
    rewrite scan_chars_escape.
    change (lit ": ") with [58; 32] at 1. cbn [app].
    cbn [skip_ws is_ws N.eqb Pos.eqb orb peek]. rewrite skip_ws_encode.
    rewrite <- !app_assoc.
    rewrite Hx by (try (cbn; auto); lia).
    cbn [app]. rewrite skip_ws_solid by reflexivity.
    cbn [peek N.eqb Pos.eqb]. rewrite skip_ws_newline_indent.
    match goal with
    | |- context [scan_members n (skip_ws ?t)] =>
        assert (Hj : skip_ws t = t)
    end.
    { destruct d'; cbn [map]; [cbn [join]|rewrite join_cons]; reflexivity. }
    rewrite Hj.
    cbn [fold_right fst snd] in Hfuel.
    specialize (IH ltac:(discriminate) lvl rest n Hr ltac:(cbn [fold_right fst snd]; lia)).
    etransitivity;
      [apply (f_equal (fmap (prod_map (cons (k, x)) id))); exact IH | reflexivity].
Qed.

(** *** Every value *)

Theorem reads_back_all v : wf_value v -> reads_back v.
Proof.
  induction v as [ | b | z | s | l IH | d IH ] using value_induction;
    intros Hwf lvl rest fuel Hr Hfuel;
    (destruct fuel as [|n]; [cbn [weight] in Hfuel; lia|]).
  - reflexivity.
  - destruct b; reflexivity.
  - now apply scan_value_int.
  - cbn [encode]. unfold encode_str. cbn [app scan_value N.eqb Pos.eqb].
    rewrite <- app_assoc. cbn [app]. now rewrite scan_chars_escape.
  - apply wf_value_list in Hwf.
    assert (Hall : Forall reads_back l).
    { eapply Forall_impl; [apply Forall_and; split; [exact IH | exact Hwf]|].
      intros x [H1 H2]. auto. }
    destruct l as [|x l]; [reflexivity|].
    cbn [encode weight] in *. cbn [app scan_value N.eqb Pos.eqb].
    rewrite <- !app_assoc. rewrite skip_ws_newline_indent.
    change (encode (S lvl) x :: map (encode (S lvl)) l)
      with (map (encode (S lvl)) (x :: l)).
    match goal with
    | |- context [peek 93 (skip_ws ?t)] => assert (Hj : skip_ws t = t /\ peek 93 t = None)
    end.
    { destruct l; cbn [map]; [cbn [join]|rewrite join_cons, <- !app_assoc];
        split; auto using skip_ws_encode, peek_encode. }
    destruct Hj as [-> ->]. cbn [app].
    rewrite scan_items_join by (auto; try discriminate; lia). reflexivity.
  - apply wf_value_dict in Hwf as [Hnd Hwf].
    assert (Hall : Forall (fun kv => reads_back (snd kv)) d).
    { eapply Forall_impl; [apply Forall_and; split; [exact IH | exact Hwf]|].
      intros x [H1 H2]. auto. }
    destruct d as [|[k x] d]; [reflexivity|].
    cbn [encode weight] in *. cbn [app scan_value N.eqb Pos.eqb].
    rewrite <- !app_assoc. rewrite skip_ws_newline_indent.
    match goal with
    | |- context [peek 125 (skip_ws ?t)] => assert (Hj : skip_ws t = t /\ peek 125 t = None)
    end.
    { destruct d; cbn [map fst snd]; [cbn [join]|rewrite join_cons]; split; reflexivity. }
    destruct Hj as [-> ->]. cbn [app].
    rewrite scan_members_join by (auto; try discriminate; lia).
    cbn [fmap option_fmap option_map prod_map fst snd id].
    now rewrite dict_of_pairs_id.
Qed.


(** *** Enough fuel *)

Lemma join_weight {A} (f : A -> str) (w : A -> nat) sep l :
  (2 <= length sep)%nat ->
  Forall (fun x => (w x <= length (f x))%nat) l ->
  (fold_right (fun x n => S (w x + n)) O l <= S (length (join sep (map f l))))%nat.
Proof.
  intros Hsep. induction 1 as [|x l Hx _ IH]; cbn [fold_right map]; [lia|].
  destruct l as [|y l'].
  - cbn [fold_right map join]. lia.
  - cbn [map] in *. rewrite join_cons, !length_app. lia.
Qed.

Lemma weight_le_length v : forall lvl, (weight v <= length (encode lvl v))%nat.
Proof.
  induction v as [ | b | z | s | l IH | d IH ] using value_induction; intros lvl.
  1-4: match goal with
       | |- context [encode ?k ?v] =>
           destruct (encode_head v k) as (c & r & -> & _); cbn; lia
       end.
  - destruct l as [|x l]; [cbn; lia|].
    assert (H : (fold_right (fun x n => S (weight x + n)) O (x :: l)
                 <= S (length (join (44%N :: newline_indent (S lvl))
                                 (map (encode (S lvl)) (x :: l)))))%nat).
    { apply join_weight; [unfold newline_indent; cbn [length]; lia|].
      eapply Forall_impl; [exact IH|]; auto. }
    cbn [weight encode]. unfold newline_indent in *.
    cbn [length] in *. rewrite !length_app. cbn [length]. lia.
  - destruct d as [|kx d]; [cbn; lia|].
    assert (H : (fold_right (fun kv n => S (weight (snd kv) + n)) O (kx :: d)
                 <= S (length (join (44%N :: newline_indent (S lvl))
                         (map (fun kv => encode_str (fst kv) ++ lit ": "
                                         ++ encode (S lvl) (snd kv)) (kx :: d)))))%nat).
    { apply (join_weight _ (fun kv => weight (snd kv))); [unfold newline_indent; cbn [length]; lia|].
      eapply Forall_impl; [exact IH|]. intros kv Hkv. cbv beta in Hkv.
      rewrite !length_app. specialize (Hkv (S lvl)). lia. }
    cbn [weight encode]. unfold newline_indent in *.
    cbn [length] in *. rewrite !length_app. cbn [length]. lia.
Qed.

(** The reader inverts the encoder. *)
Theorem loads_dumps v : wf_value v -> loads (dumps v) = Some v.
Proof.
  intros Hwf. unfold loads, dumps.
  pose proof (skip_ws_encode v 0 []) as Hs. rewrite app_nil_r in Hs. rewrite Hs.
  pose proof (reads_back_all v Hwf 0%nat [] (S (length (encode 0 v))) I) as Hr.
  rewrite app_nil_r in Hr. rewrite Hr by (pose proof (weight_le_length v 0); lia).
  reflexivity.
Qed.


(* ===================================================================== *)
(** ** Files, records and ids *)
(* ===================================================================== *)

(** *** Files *)


Lemma saved_lookup m path data :
  usable m path -> saved m path data !! path = Some (File true true data).
Proof.
  intros [H | (old & H)]; unfold saved; rewrite H; apply lookup_insert_eq.
Qed.

Lemma saved_other m path data q : q <> path -> saved m path data !! q = m !! q.
Proof. intros H. unfold saved. now apply lookup_insert_ne. Qed.

Lemma saved_usable m path data : usable m path -> usable (saved m path data) path.
Proof. intros H. right. exists data. now apply saved_lookup. Qed.

Lemma usable_writable m path : usable m path -> writable m path.
Proof. intros [H | (d & H)]; [now left | right; eauto]. Qed.

(** Saving again what the file holds leaves the file system as it is. *)
Lemma saved_again m path data :
  m !! path = Some (File true true data) -> saved m path data = m.
Proof. intros H. unfold saved. rewrite H. now apply insert_id. Qed.

(** *** Dictionaries and records *)

Lemma dict_get_set_eq k v d : dict_get k (dict_set k v d) = Some v.
Proof.
  induction d as [|[k' v'] d IH]; cbn [dict_set dict_get].
  - destruct (decide (k = k)); [reflexivity | contradiction].
  - destruct (decide (k = k')) as [->|Hne]; cbn [dict_get].
    + destruct (decide (k' = k')); [reflexivity | contradiction].
    + destruct (decide (k = k')); [contradiction | exact IH].
Qed.

Lemma dict_get_set_ne k k' v d :
  k' <> k -> dict_get k' (dict_set k v d) = dict_get k' d.
Proof.
  intros Hne. induction d as [|[k0 v0] d IH]; cbn [dict_set dict_get].
  - destruct (decide (k' = k)); [contradiction | reflexivity].
  - destruct (decide (k = k0)) as [->|Hk]; cbn [dict_get].
    + destruct (decide (k' = k0)); [contradiction | reflexivity].
    + destruct (decide (k' = k0)); [reflexivity | exact IH].
Qed.

Lemma dict_set_idem k v d : dict_set k v (dict_set k v d) = dict_set k v d.
Proof.
  induction d as [|[k0 v0] d IH]; cbn [dict_set].
  - destruct (decide (k = k)); [reflexivity | contradiction].
  - destruct (decide (k = k0)) as [->|Hk]; cbn [dict_set].
    + destruct (decide (k0 = k0)); [reflexivity | contradiction].
    + destruct (decide (k = k0)); [contradiction | now rewrite IH].
Qed.

Lemma dict_set_keys k v d :
  keys (dict_set k v d) = if decide (k ∈ keys d) then keys d else keys d ++ [k].
Proof.
  induction d as [|[k0 v0] d IH]; cbn [dict_set keys map fst].
  - destruct (decide (k ∈ [])) as [H|_]; [inversion H | reflexivity].
  - fold (keys d) in *. destruct (decide (k = k0)) as [->|Hk]; cbn [map fst].
    + fold (keys d). destruct (decide (k0 ∈ k0 :: keys d)) as [_|H];
        [reflexivity | exfalso; apply H; left].
    + fold (keys (dict_set k v d)). rewrite IH.
      destruct (decide (k ∈ keys d)) as [Hin|Hin];
        destruct (decide (k ∈ k0 :: keys d)) as [Hin'|Hin']; try reflexivity.
      * exfalso. apply Hin'. now right.
      * apply elem_of_cons in Hin' as [?|?]; contradiction.
Qed.

Lemma dict_set_nodup k v d : NoDup (keys d) -> NoDup (keys (dict_set k v d)).
Proof.
  intros H. rewrite dict_set_keys. destruct (decide (k ∈ keys d)); [exact H|].
  apply NoDup_app. split; [exact H|]. split; [|apply NoDup_singleton].
  intros x Hx Hx'. apply list_elem_of_singleton in Hx'. now subst.
Qed.

Lemma dict_set_values (P : value -> Prop) k v d :
  P v -> Forall (fun kv => P (snd kv)) d ->
  Forall (fun kv => P (snd kv)) (dict_set k v d).
Proof.
  intros Hv. induction 1 as [|[k0 v0] d H0 Hd IH]; cbn [dict_set].
  - now repeat constructor.
  - destruct (decide (k = k0)); constructor; cbn [snd]; auto.
Qed.

Lemma encodable_value_list l :
  encodable_value (PyList l) <-> Forall encodable_value l.
Proof. unfold encodable_value. cbn [strings_of]. apply Forall_flat_map. Qed.

Lemma encodable_value_dict d :
  encodable_value (PyDict d) <->
  Forall (fun kv => encodable (fst kv) /\ encodable_value (snd kv)) d.
Proof.
  unfold encodable_value. cbn [strings_of]. rewrite Forall_flat_map.
  apply Forall_iff. intros [k v]. cbn [fst snd]. apply Forall_cons.
Qed.

Lemma mark_done_wf t : wf_value t -> wf_value (mark_done t).
Proof.
  destruct t as [ | | | | |d]; try (intros H; exact H).
  intros H. cbn [mark_done]. apply wf_value_dict in H as [Hk Hv].
  apply wf_value_dict. split; [now apply dict_set_nodup|].
  now apply (dict_set_values wf_value).
Qed.

Lemma mark_done_encodable t : encodable_value t -> encodable_value (mark_done t).
Proof.
  destruct t as [ | | | | |d]; auto.
  intros H. cbn [mark_done]. apply encodable_value_dict in H.
  apply encodable_value_dict.
  induction H as [|[k0 v0] d H0 Hd IH]; cbn [dict_set].
  - constructor; [|constructor]. cbn [fst snd]. split; [|constructor].
    apply Forall_forall. intros c Hc.
    apply list_elem_of_In in Hc. cbn in Hc. intuition (subst; reflexivity).
  - destruct (decide (k_done = k0)); constructor; auto.
    cbn [fst snd] in *. split; [tauto | constructor].
Qed.

Lemma mark_done_id t : int_id (mark_done t) = int_id t.
Proof.
  destruct t as [ | | | | |d]; try reflexivity.
  cbn [mark_done int_id]. now rewrite dict_get_set_ne by discriminate.
Qed.

Lemma mark_done_idem t : mark_done (mark_done t) = mark_done t.
Proof.
  destruct t as [ | | | | |d]; try reflexivity.
  cbn [mark_done]. now rewrite dict_set_idem.
Qed.

Lemma mark_done_record t : is_record t -> is_record (mark_done t).
Proof. destruct t; auto. Qed.

(** *** The loop of [complete_task] *)

(** The test of the loop: equality of integers. *)
Lemma py_eq_int x n : py_eq x (PyInt n) = true <-> as_int x = Some n.
Proof.
  destruct x as [ | b | z | s | l | d ]; cbn [py_eq as_int];
    try (split; discriminate).
  - rewrite Z.eqb_eq. split; congruence.
  - rewrite Z.eqb_eq. split; congruence.
Qed.

Lemma record_test task_id d :
  py_eq (default PyNone (dict_get k_id d)) (PyInt task_id)
  = bool_decide (int_id (PyDict d) = Some task_id).
Proof.
  cbn [int_id]. apply eq_true_iff_eq. rewrite py_eq_int, bool_decide_eq_true.
  destruct (dict_get k_id d); reflexivity.
Qed.

Lemma print_run s w : print s w = (Ret tt, World (fs w) (stdout w ++ [s])).
Proof. reflexivity. Qed.

(** *** The next id *)

Lemma py_gt_numeric x cur z c :
  as_int x = Some z -> as_int cur = Some c -> py_gt x cur = Ret (c <? z)%Z.
Proof.
  intros Hx Hc. destruct x; try discriminate; cbn [py_gt]; now rewrite Hx, Hc.
Qed.

Lemma get_id_or_zero t z :
  id_or_zero t = Some z ->
  exists x, get t k_id (PyInt 0) = Ret x /\ as_int x = Some z.
Proof. destruct t; try discriminate. cbn [id_or_zero get]. eauto. Qed.

Lemma max_loop_numeric ts zs :
  Forall2 (fun t z => id_or_zero t = Some z) ts zs ->
  forall cur c, as_int cur = Some c ->
  exists cur', max_loop cur ts = Ret cur' /\
               as_int cur' = Some (foldl Z.max c zs).
Proof.
  induction 1 as [|t z ts zs Ht _ IH]; intros cur c Hc; [cbn; eauto|].
  destruct (get_id_or_zero t z Ht) as (x & Hx & Hxz).
  cbn [max_loop foldl]. rewrite Hx. cbn [rbind].
  rewrite (py_gt_numeric x cur z c Hxz Hc). cbn [rbind].
  apply IH. destruct (Z.ltb_spec c z).
  - now rewrite Z.max_r by lia.
  - now rewrite Z.max_l by lia.
Qed.

(** [max(...) + 1] on records whose ids are numbers. *)
Lemma next_id ts zs :
  Forall2 (fun t z => id_or_zero t = Some z) ts zs ->
  rbind (max_id ts) add_one = Ret (PyInt (max_or_zero zs + 1)).
Proof.
  intros H. destruct H as [|t z ts zs Ht H]; [reflexivity|].
  destruct (get_id_or_zero t z Ht) as (x & Hx & Hxz).
  cbn [max_id max_or_zero]. rewrite Hx. cbn [rbind].
  destruct (max_loop_numeric ts zs H x z Hxz) as (cur & -> & Hcur).
  cbn [rbind]. unfold add_one. now rewrite Hcur.
Qed.

Lemma foldl_max_le c l : (c <= foldl Z.max c l)%Z.
Proof.
  revert c. induction l as [|x l IH]; intros c; cbn [foldl]; [lia|].
  specialize (IH (Z.max c x)). lia.
Qed.

Lemma foldl_max_snoc c l x : foldl Z.max c (l ++ [x]) = Z.max (foldl Z.max c l) x.
Proof. now rewrite foldl_app. Qed.

(** After the new id has been added it is the largest. *)
Lemma max_or_zero_snoc zs :
  max_or_zero (zs ++ [max_or_zero zs + 1]%Z) = (max_or_zero zs + 1)%Z.
Proof.
  destruct zs as [|z zs]; [reflexivity|].
  cbn [app max_or_zero]. rewrite foldl_max_snoc. lia.
Qed.

(** *** Decimal digits *)

Lemma int_str_no_lf z : Forall (fun c => c <> 10) (int_str z).
Proof.
  assert (H : forall d, Forall (fun c => c <> 10) (uint_str d))
    by (induction d; cbn [uint_str]; constructor; auto; discriminate).
  unfold int_str. destruct (Z.to_int z); [apply H|].
  constructor; [discriminate | apply H].
Qed.

(** *** The new task *)

Lemma digits_ascii w n : Forall (fun c => c < 128) (digits w n).
Proof.
  revert n. induction w as [|w IH]; intros n; cbn [digits]; [constructor|].
  apply Forall_app. split; [apply IH|].
  repeat constructor. pose proof (N.mod_lt n 10). lia.
Qed.

Lemma digits_length w n : length (digits w n) = w.
Proof.
  revert n. induction w as [|w IH]; intros n; cbn [digits]; [reflexivity|].
  rewrite length_app, IH. cbn. lia.
Qed.

Lemma ascii_encodable s : Forall (fun c => c < 128) s -> encodable s.
Proof.
  intros H. eapply Forall_impl; [exact H|]. intros c Hc. cbv beta in Hc.
  unfold scalar. apply orb_true_iff. left. apply N.ltb_lt. lia.
Qed.

Lemma lit_ascii (s : string) :
  forallb (fun c => c <? 128) (lit s) = true -> Forall (fun c => c < 128) (lit s).
Proof.
  intros H. apply Forall_forall. intros c Hc. apply list_elem_of_In in Hc.
  rewrite forallb_forall in H. now apply N.ltb_lt, H.
Qed.

Lemma isoformat_ascii t : Forall (fun c => c < 128) (isoformat t ++ lit "Z").
Proof.
  unfold isoformat. rewrite !Forall_app.
  repeat split; try apply digits_ascii; try (apply lit_ascii; reflexivity).
  destruct (microsecond t =? 0); [constructor|].
  rewrite Forall_app. split; [apply lit_ascii; reflexivity | apply digits_ascii].
Qed.

Lemma new_task_wf i title desc now :
  wf_value (new_task (PyInt i) title desc now).
Proof.
  apply wf_value_dict. split.
  - apply NoDup_ListNoDup. repeat constructor; cbn; intuition discriminate.
  - repeat constructor.
Qed.

Lemma new_task_encodable i title desc now :
  encodable title -> encodable desc ->
  encodable_value (new_task (PyInt i) title desc now).
Proof.
  intros Ht Hd. unfold encodable_value. cbn [new_task strings_of flat_map fst snd app].
  repeat match goal with
         | |- Forall encodable (_ :: _) => constructor
         | |- Forall encodable [] => constructor
         end; try assumption;
    try (apply ascii_encodable, lit_ascii; reflexivity).
  apply ascii_encodable, isoformat_ascii.
Qed.

Lemma new_task_id i title desc now :
  id_or_zero (new_task (PyInt i) title desc now) = Some i.
Proof. reflexivity. Qed.

(** Records whose ids are integers are records whose ids are numbers. *)
Lemma typed_ids ts ids :
  Forall2 (fun t i => exists d, t = PyDict d /\
                                dict_get k_id d = Some (PyInt i)) ts ids ->
  Forall2 (fun t z => id_or_zero t = Some z) ts ids.
Proof.
  intros H. eapply Forall2_impl; [exact H|].
  intros t i (d & -> & Hd). cbn [id_or_zero]. now rewrite Hd.
Qed.

(** *** Records without an id *)

Lemma max_or_zero_nonneg l :
  Forall (fun z => 0 <= z)%Z l -> max_or_zero l = foldl Z.max 0%Z l.
Proof.
  destruct 1 as [|z l Hz _]; [reflexivity|].
  cbn [max_or_zero foldl]. now rewrite Z.max_r by lia.
Qed.

(** The ids [add_task] reads in records whose id is missing or an
    integer. *)
Lemma ids_read_as_zero ts :
  Forall (fun t => exists d, t = PyDict d /\
            (dict_get k_id d = None \/
             exists i, dict_get k_id d = Some (PyInt i))) ts ->
  Forall2 (fun t z => id_or_zero t = Some z) ts
    (map (fun t => default 0%Z (int_id t)) ts).
Proof.
  induction 1 as [|t ts (d & -> & Hd) _ IH]; [constructor|].
  cbn [map]. constructor; [|exact IH].
  cbn [id_or_zero int_id].
  destruct Hd as [Hd | (i & Hd)]; now rewrite Hd.
Qed.

(** A zero in place of a missing id does not change the largest id when
    no id is negative. *)
Lemma foldl_max_missing ts :
  Forall (fun z => 0 <= z)%Z (omap int_id ts) ->
  Forall (fun z => 0 <= z)%Z (map (fun t => default 0%Z (int_id t)) ts) /\
  forall c, (0 <= c)%Z ->
    foldl Z.max c (map (fun t => default 0%Z (int_id t)) ts)
    = foldl Z.max c (omap int_id ts).
Proof.
  induction ts as [|t ts IH]; intros Hp; [split; [constructor | reflexivity]|].
  cbn [map omap list_omap] in *. destruct (int_id t) as [i|].
  - apply Forall_cons in Hp as [Hi Hp]. destruct (IH Hp) as [IH1 IH2].
    split; [constructor; assumption|].
    intros c Hc. cbn [default foldl]. apply IH2. lia.
  - destruct (IH Hp) as [IH1 IH2]. split; [constructor; [cbn; lia | assumption]|].
    intros c Hc. cbn [default foldl]. rewrite Z.max_l by lia. now apply IH2.
Qed.

(* ===================================================================== *)
(** ** The task store *)
(* ===================================================================== *)

Section Store.

Variable json_loads : str -> option value.
Variable repr : value -> str.
Variable flushed : str -> list byte.

(** What the program relies on from the [json] module: a value that was
    dumped is loaded back. *)
Hypothesis json_loads_dumps :
  forall v, wf_value v -> json_loads (dumps v) = Some v.

Abbreviation load_tasks := (Todo.load_tasks json_loads).
Abbreviation save_tasks := (Todo.save_tasks flushed).
Abbreviation add_task := (Todo.add_task json_loads repr flushed).
Abbreviation list_tasks := (Todo.list_tasks json_loads repr).
Abbreviation complete_task := (Todo.complete_task json_loads flushed).
Abbreviation complete_loop := (Todo.complete_loop flushed).
Abbreviation holds := (Todo.holds json_loads).
Abbreviation add_all := (Todo.add_all json_loads repr flushed).

(** *** Loading and saving *)

(** Loading never changes the world. *)
Lemma load_tasks_world path w : snd (load_tasks path w) = w.
Proof.
  unfold Todo.load_tasks, bind, os_path_exists, open_r, read, ret, raise.
  destruct (fs w !! path) as [[[|] wr data| |]|] eqn:E; cbn; rewrite ?E; cbn;
    try reflexivity.
  destruct (utf8_decode data); cbn; [|reflexivity].
  destruct (json_loads _); reflexivity.
Qed.

Lemma load_tasks_absent path w :
  fs w !! path = None -> load_tasks path w = (Ret (PyList []), w).
Proof.
  intros H. unfold Todo.load_tasks, bind, os_path_exists. now rewrite H.
Qed.

Lemma load_tasks_file path w wr data text :
  fs w !! path = Some (File true wr data) ->
  utf8_decode data = Some text ->
  load_tasks path w =
    (Ret (default (PyList []) (json_loads (universal_newlines text))), w).
Proof.
  intros H Hd. unfold Todo.load_tasks, bind, os_path_exists, open_r, read.
  rewrite H. cbn. rewrite H. cbn. rewrite Hd. cbn.
  destruct (json_loads _); reflexivity.
Qed.

Lemma save_tasks_ok v path w data :
  writable (fs w) path ->
  utf8_encode (dumps v) = Some data ->
  save_tasks v path w = (Ret tt, World (saved (fs w) path data) (stdout w)).
Proof.
  intros Hw He.
  unfold Todo.save_tasks, bind, open_w, json_dump, put, set_fs, saved.
  rewrite He.
  destruct Hw as [H | (r & old & H)]; rewrite H; cbn;
    rewrite lookup_insert_eq, insert_insert_eq; reflexivity.
Qed.

Lemma save_tasks_refused v path w :
  ~ writable (fs w) path -> exists e, save_tasks v path w = (Raise e, w).
Proof.
  intros Hw. unfold Todo.save_tasks, bind, open_w.
  destruct (fs w !! path) as [[r [|] data| |]|] eqn:E; eauto.
  - exfalso. apply Hw. right. eauto.
  - exfalso. apply Hw. now left.
Qed.

(** A value that was saved is the value that is loaded. *)
Lemma load_saved v path m out data :
  wf_value v -> usable m path ->
  utf8_encode (dumps v) = Some data ->
  holds (World (saved m path data) out) path v.
Proof.
  intros Hwf Hu He. unfold Todo.holds.
  rewrite (load_tasks_file path _ true data (dumps v));
    [| cbn [fs]; now apply saved_lookup | now apply utf8_decode_encode].
  rewrite universal_newlines_id by apply dumps_no_cr.
  now rewrite json_loads_dumps.
Qed.

Lemma save_then_load v path w :
  wf_value v -> encodable_value v -> usable (fs w) path ->
  exists data,
    utf8_encode (dumps v) = Some data /\
    save_tasks v path w = (Ret tt, World (saved (fs w) path data) (stdout w)) /\
    holds (World (saved (fs w) path data) (stdout w)) path v.
Proof.
  intros Hwf He Hu.
  destruct (utf8_encode_total (dumps v) (dumps_encodable v He)) as [data Hd].
  exists data. split; [exact Hd|]. split.
  - apply save_tasks_ok; [now apply usable_writable | exact Hd].
  - now apply load_saved.
Qed.

(** *** Completing *)

Lemma complete_loop_spec task_id path tasks ts :
  Forall is_record ts ->
  forall i w,
    complete_loop task_id path tasks i ts w =
    match list_find (fun t => int_id t = Some task_id) ts with
    | Some (j, t) =>
        bind (save_tasks (stored tasks (i + j) (mark_done t)) path)
          (fun _ => print (lit "Marked task " ++ int_str task_id
                           ++ lit " complete.")) w
    | None =>
        print (lit "No task found with id " ++ int_str task_id ++ lit ".") w
    end.
Proof.
  induction 1 as [|t ts Ht _ IH]; intros i w; [reflexivity|].
  destruct t as [ | | | | |d]; try contradiction.
  cbn [Todo.complete_loop list_find]. unfold bind at 1. cbn [lift get].
  rewrite record_test.
  destruct (decide (int_id (PyDict d) = Some task_id)) as [Hid|Hid].
  - rewrite bool_decide_eq_true_2 by exact Hid.
    unfold bind at 1. cbn [lift setitem mark_done]. now rewrite Nat.add_0_r.
  - rewrite bool_decide_eq_false_2 by exact Hid. rewrite IH.
    destruct (list_find _ ts) as [[j t']|]; cbn; [|reflexivity].
    now rewrite Nat.add_succ_r.
Qed.

Lemma complete_task_spec task_id path w ts :
  holds w path (PyList ts) -> Forall is_record ts ->
  complete_task task_id path w =
    match list_find (fun t => int_id t = Some task_id) ts with
    | Some (j, t) =>
        bind (save_tasks (PyList (<[j := mark_done t]> ts)) path)
          (fun _ => print (lit "Marked task " ++ int_str task_id
                           ++ lit " complete.")) w
    | None =>
        print (lit "No task found with id " ++ int_str task_id ++ lit ".") w
    end.
Proof.
  intros Hh Hr. unfold Todo.complete_task, bind at 1. rewrite Hh.
  unfold bind at 1. cbn [lift py_iter].
  now rewrite complete_loop_spec.
Qed.

(** What a successful [complete_task] does, given the first match. *)
Lemma complete_found task_id path w ts i t :
  holds w path (PyList ts) -> Forall is_record ts ->
  wf_value (PyList ts) -> encodable_value (PyList ts) ->
  usable (fs w) path ->
  list_find (fun t => int_id t = Some task_id) ts = Some (i, t) ->
  exists data,
    utf8_encode (dumps (PyList (<[i := mark_done t]> ts))) = Some data /\
    complete_task task_id path w =
      (Ret tt, World (saved (fs w) path data)
                 (stdout w ++ [lit "Marked task " ++ int_str task_id
                               ++ lit " complete."])) /\
    wf_value (PyList (<[i := mark_done t]> ts)) /\
    encodable_value (PyList (<[i := mark_done t]> ts)) /\
    Forall is_record (<[i := mark_done t]> ts).
Proof.
  intros Hh Hr Hwf He Hu Hf.
  apply list_find_Some in Hf as (Hi & Hid & Hfirst).
  assert (Hwf' : wf_value (PyList (<[i := mark_done t]> ts))).
  { apply wf_value_list. apply wf_value_list in Hwf.
    apply Forall_insert; [exact Hwf|].
    apply mark_done_wf. eapply Forall_lookup_1; eauto. }
  assert (He' : encodable_value (PyList (<[i := mark_done t]> ts))).
  { apply encodable_value_list. apply encodable_value_list in He.
    apply Forall_insert; [exact He|].
    apply mark_done_encodable. eapply Forall_lookup_1; eauto. }
  assert (Hr' : Forall is_record (<[i := mark_done t]> ts)).
  { apply Forall_insert; [exact Hr|].
    apply mark_done_record. eapply Forall_lookup_1; eauto. }
  destruct (utf8_encode_total _ (dumps_encodable _ He')) as [data Hd].
  exists data. repeat split; try assumption.
  rewrite (complete_task_spec task_id path w ts Hh Hr).
  assert (Hf : list_find (fun t => int_id t = Some task_id) ts = Some (i, t))
    by (apply list_find_Some; auto).
  rewrite Hf. unfold bind.
  rewrite (save_tasks_ok _ path w data (usable_writable _ _ Hu) Hd).
  reflexivity.
Qed.

(** C1: [complete_task] selects a task by the value of its id.  The test
    of the loop holds exactly when the two integers are equal; when some
    task of the stored collection has the requested id, whatever its size,
    the call succeeds, reports success and leaves that task done on disk;
    when no task has it, the call reports that none was found. *)
Theorem complete_matches_by_value path w ts task_id :
  holds w path (PyList ts) -> Forall is_record ts ->
  wf_value (PyList ts) -> encodable_value (PyList ts) ->
  usable (fs w) path ->
  (forall i, py_eq (PyInt i) (PyInt task_id) = true <-> i = task_id) /\
  ((exists t, t ∈ ts /\ int_id t = Some task_id) ->
   exists i t w',
     ts !! i = Some t /\ int_id t = Some task_id /\
     complete_task task_id path w = (Ret tt, w') /\
     stdout w' = stdout w ++ [lit "Marked task " ++ int_str task_id
                              ++ lit " complete."] /\
     holds w' path (PyList (<[i := mark_done t]> ts)) /\
     exists d, mark_done t = PyDict d /\
               dict_get k_done d = Some (PyBool true)) /\
  ((forall t, t ∈ ts -> int_id t <> Some task_id) ->
   exists w',
     complete_task task_id path w = (Ret tt, w') /\
     stdout w' = stdout w ++ [lit "No task found with id "
                              ++ int_str task_id ++ lit "."]).
Proof.
  intros Hh Hr Hwf He Hu. split; [|split].
  - intros i. rewrite py_eq_int. cbn [as_int]. split; congruence.
  - intros (t0 & Hin & Hid0).
    destruct (list_find_elem_of (fun t => int_id t = Some task_id) ts t0 Hin Hid0)
      as [[i t] Hf].
    destruct (complete_found task_id path w ts i t Hh Hr Hwf He Hu Hf)
      as (data & Hd & Hrun & Hwf' & He' & Hr').
    apply list_find_Some in Hf as (Hi & Hid & _).
    exists i, t. eexists. repeat split; [exact Hi | exact Hid | exact Hrun | reflexivity | |].
    + now apply load_saved.
    + assert (Ht : is_record t) by exact (Forall_lookup_1 _ _ _ _ Hr Hi).
      destruct t as [ | | | | |d]; try contradiction.
      eexists. split; [reflexivity|]. apply dict_get_set_eq.
  - intros Hnone. eexists.
    rewrite (complete_task_spec task_id path w ts Hh Hr).
    assert (Hf : list_find (fun t => int_id t = Some task_id) ts = None).
    { apply list_find_None, Forall_forall. exact Hnone. }
    rewrite Hf, print_run. split; reflexivity.
Qed.

(** C4: when no task of the stored collection has the requested id,
    [complete_task] prints the message that names the id and changes
    nothing else: the file system is the one it started from. *)
Theorem complete_unknown_id_is_noop path w ts task_id :
  holds w path (PyList ts) -> Forall is_record ts ->
  (forall t, t ∈ ts -> int_id t <> Some task_id) ->
  complete_task task_id path w =
    (Ret tt, World (fs w)
               (stdout w ++ [lit "No task found with id " ++ int_str task_id
                             ++ lit "."])).
Proof.
  intros Hh Hr Hnone.
  rewrite (complete_task_spec task_id path w ts Hh Hr).
  assert (Hf : list_find (fun t => int_id t = Some task_id) ts = None).
  { apply list_find_None, Forall_forall. exact Hnone. }
  now rewrite Hf.
Qed.

(** C5: when the stored collection contains a task with the requested id,
    [complete_task] changes the first such task and no other: after the
    call the file holds the same list with [done] set to [True] in that
    task, whose other keys keep their values, and every other position
    holds what it held.  A second call with the same id leaves the file
    system as the first call left it and reports success again. *)
Theorem complete_marks_first_match_only path w ts task_id :
  holds w path (PyList ts) -> Forall is_record ts ->
  wf_value (PyList ts) -> encodable_value (PyList ts) ->
  usable (fs w) path ->
  (exists t, t ∈ ts /\ int_id t = Some task_id) ->
  exists i d w1 w2,
    ts !! i = Some (PyDict d) /\ int_id (PyDict d) = Some task_id /\
    (forall j u, (j < i)%nat -> ts !! j = Some u -> int_id u <> Some task_id) /\
    complete_task task_id path w = (Ret tt, w1) /\
    stdout w1 = stdout w ++ [lit "Marked task " ++ int_str task_id
                             ++ lit " complete."] /\
    holds w1 path (PyList (<[i := mark_done (PyDict d)]> ts)) /\
    mark_done (PyDict d) = PyDict (dict_set k_done (PyBool true) d) /\
    dict_get k_done (dict_set k_done (PyBool true) d) = Some (PyBool true) /\
    (forall k, k <> k_done ->
       dict_get k (dict_set k_done (PyBool true) d) = dict_get k d) /\
    length (<[i := mark_done (PyDict d)]> ts) = length ts /\
    (forall j, j <> i -> <[i := mark_done (PyDict d)]> ts !! j = ts !! j) /\
    complete_task task_id path w1 = (Ret tt, w2) /\
    fs w2 = fs w1 /\
    stdout w2 = stdout w1 ++ [lit "Marked task " ++ int_str task_id
                              ++ lit " complete."].
Proof.
  intros Hh Hr Hwf He Hu (t0 & Hin & Hid0).
  destruct (list_find_elem_of (fun t => int_id t = Some task_id) ts t0 Hin Hid0)
    as [[i t] Hf].
  destruct (complete_found task_id path w ts i t Hh Hr Hwf He Hu Hf)
    as (data & Hd & Hrun & Hwf' & He' & Hr').
  pose proof Hf as Hf0.
  apply list_find_Some in Hf as (Hi & Hid & Hfirst).
  assert (Ht : is_record t) by exact (Forall_lookup_1 _ _ _ _ Hr Hi).
  destruct t as [ | | | | |d]; try contradiction.
  set (t' := mark_done (PyDict d)) in *. set (ts' := <[i := t']> ts) in *.
  set (w1 := World (saved (fs w) path data)
                (stdout w ++ [lit "Marked task " ++ int_str task_id
                              ++ lit " complete."])) in *.
  assert (Hlen : (i < length ts)%nat) by (eapply lookup_lt_Some; eauto).
  assert (Hh1 : holds w1 path (PyList ts')) by now apply load_saved.
  assert (Hf1 : list_find (fun t => int_id t = Some task_id) ts' = Some (i, t')).
  { apply list_find_Some. split; [|split].
    - now apply list_lookup_insert_eq.
    - subst t'. now rewrite mark_done_id.
    - intros j u Hj Hlt. unfold ts' in Hj.
      rewrite list_lookup_insert_ne in Hj by lia. eauto. }
  assert (Hu1 : usable (fs w1) path) by now apply saved_usable.
  destruct (complete_found task_id path w1 ts' i t' Hh1 Hr' Hwf' He' Hu1 Hf1)
    as (data2 & Hd2 & Hrun2 & _).
  assert (Hsame : <[i := mark_done t']> ts' = ts').
  { subst t' ts'. rewrite mark_done_idem. apply list_insert_insert_eq. }
  rewrite Hsame in Hd2. rewrite Hd in Hd2. injection Hd2 as <-.
  exists i, d, w1.
  exists (World (saved (fs w1) path data)
            (stdout w1 ++ [lit "Marked task " ++ int_str task_id
                           ++ lit " complete."])).
  repeat split; try eassumption; try reflexivity.
  - intros j u Hlt Hj. eauto.
  - apply dict_get_set_eq.
  - intros k Hk. now apply dict_get_set_ne.
  - apply length_insert.
  - intros j Hj. apply list_lookup_insert_ne. congruence.
  - cbn [fs w1]. apply saved_again. now apply saved_lookup.
Qed.

(** *** Adding *)

(** What a successful [add_task] does. *)
Lemma add_task_spec title desc path now w ts zs :
  holds w path (PyList ts) ->
  Forall2 (fun t z => id_or_zero t = Some z) ts zs ->
  wf_value (PyList ts) -> encodable_value (PyList ts) ->
  encodable title -> encodable desc ->
  usable (fs w) path ->
  let i := (max_or_zero zs + 1)%Z in
  let ts' := ts ++ [new_task (PyInt i) title desc now] in
  exists data,
    utf8_encode (dumps (PyList ts')) = Some data /\
    add_task title desc path now w =
      (Ret tt, World (saved (fs w) path data)
                 (stdout w ++ [lit "Added task " ++ int_str i ++ lit ": "
                               ++ title])) /\
    wf_value (PyList ts') /\ encodable_value (PyList ts') /\
    Forall2 (fun t z => id_or_zero t = Some z) ts' (zs ++ [i]).
Proof.
  intros Hh Hids Hwf He Ht Hd Hu i ts'.
  assert (Hwf' : wf_value (PyList ts')).
  { apply wf_value_list, Forall_app.
    split; [exact (proj1 (wf_value_list ts) Hwf)|].
    constructor; [apply new_task_wf | constructor]. }
  assert (He' : encodable_value (PyList ts')).
  { apply encodable_value_list, Forall_app.
    split; [exact (proj1 (encodable_value_list ts) He)|].
    constructor; [now apply new_task_encodable | constructor]. }
  destruct (utf8_encode_total _ (dumps_encodable _ He')) as [data Hdata].
  exists data. repeat split; try assumption.
  - unfold Todo.add_task, bind at 1. rewrite Hh.
    unfold bind at 1. cbn [lift py_iter].
    pose proof (next_id ts zs Hids) as Hn. fold i in Hn.
    destruct (max_id ts) as [m|e]; [|discriminate]. cbn [rbind] in Hn.
    unfold bind at 1. cbn [lift]. unfold bind at 1. rewrite Hn. cbn [lift].
    unfold bind at 1. cbn [lift append]. fold ts'. unfold bind.
    rewrite (save_tasks_ok _ path w data (usable_writable _ _ Hu) Hdata).
    reflexivity.
  - apply Forall2_app; [exact Hids|]. repeat constructor.
Qed.

(** A run of [add_task] numbers the new tasks from the largest id on. *)
Lemma add_all_spec path reqs :
  Forall (fun r => encodable r.1.1 /\ encodable r.1.2) reqs ->
  forall ts zs w,
    holds w path (PyList ts) ->
    Forall2 (fun t z => id_or_zero t = Some z) ts zs ->
    wf_value (PyList ts) -> encodable_value (PyList ts) ->
    usable (fs w) path ->
    exists w',
      add_all path reqs w = (Ret tt, w') /\
      holds w' path
        (PyList (ts ++ imap (fun k r =>
                   new_task (PyInt (max_or_zero zs + 1 + Z.of_nat k))
                     r.1.1 r.1.2 r.2) reqs)) /\
      stdout w' =
        stdout w ++ imap (fun k r =>
                      lit "Added task "
                      ++ int_str (max_or_zero zs + 1 + Z.of_nat k)
                      ++ lit ": " ++ r.1.1) reqs.
Proof.
  induction 1 as [|[[title desc] now] reqs [Ht Hd] _ IH];
    intros ts zs w Hh Hids Hwf He Hu.
  - exists w. cbn [Todo.add_all imap]. rewrite !app_nil_r. auto.
  - cbn [fst snd] in Ht, Hd.
    destruct (add_task_spec title desc path now w ts zs Hh Hids Hwf He Ht Hd Hu)
      as (data & Hdata & Hrun & Hwf' & He' & Hids').
    set (m := max_or_zero zs) in *.
    set (ts' := ts ++ [new_task (PyInt (m + 1)) title desc now]) in *.
    set (w1 := World (saved (fs w) path data)
                 (stdout w ++ [lit "Added task " ++ int_str (m + 1)
                               ++ lit ": " ++ title])) in *.
    assert (Hh1 : holds w1 path (PyList ts')) by now apply load_saved.
    assert (Hu1 : usable (fs w1) path) by now apply saved_usable.
    destruct (IH ts' (zs ++ [(m + 1)%Z]) w1 Hh1 Hids' Hwf' He' Hu1)
      as (w' & Hrun' & Hh' & Hout').
    unfold m in Hh', Hout'. rewrite max_or_zero_snoc in Hh', Hout'. fold m in Hh', Hout'.
    exists w'. split; [|split].
    + cbn [Todo.add_all]. unfold bind. now rewrite Hrun.
    + cbn [imap fst snd]. unfold ts' in Hh'. rewrite <- app_assoc in Hh'.
      cbn [app] in Hh'. rewrite Z.add_0_r.
      erewrite imap_ext; [exact Hh'|].
      intros k r _. unfold compose. do 2 f_equal. lia.
    + rewrite Hout'. cbn [stdout w1 imap fst snd]. rewrite <- app_assoc.
      cbn [app]. rewrite Z.add_0_r. do 2 f_equal.
      apply imap_ext. intros k r _. unfold compose. do 3 f_equal. lia.
Qed.

(** C2: starting from an empty store, a run of [add_task] gives the new
    tasks the ids 1, 2, 3, ... in the order of the calls, whatever the
    titles and descriptions; and on any stored collection of records with
    integer ids, the next [add_task] assigns the largest of these ids plus
    one (1 when the collection is empty), gaps or not. *)
Theorem add_assigns_successive_ids path w :
  usable (fs w) path ->
  (forall reqs,
     holds w path (PyList []) ->
     Forall (fun r => encodable r.1.1 /\ encodable r.1.2) reqs ->
     exists w',
       add_all path reqs w = (Ret tt, w') /\
       holds w' path
         (PyList (imap (fun k r => new_task (PyInt (Z.of_nat (S k)))
                                     r.1.1 r.1.2 r.2) reqs)) /\
       stdout w' =
         stdout w ++ imap (fun k r => lit "Added task "
                                      ++ int_str (Z.of_nat (S k))
                                      ++ lit ": " ++ r.1.1) reqs) /\
  (forall ts ids title desc now,
     holds w path (PyList ts) ->
     Forall2 (fun t i => exists d, t = PyDict d /\
                                   dict_get k_id d = Some (PyInt i)) ts ids ->
     wf_value (PyList ts) -> encodable_value (PyList ts) ->
     encodable title -> encodable desc ->
     exists w',
       add_task title desc path now w = (Ret tt, w') /\
       holds w' path
         (PyList (ts ++ [new_task (PyInt (max_or_zero ids + 1))
                           title desc now]))).
Proof.
  intros Hu. split.
  - intros reqs Hh Hreqs.
    destruct (add_all_spec path reqs Hreqs [] [] w Hh ltac:(constructor) I
                ltac:(constructor) Hu) as (w' & Hrun & Hh' & Hout).
    exists w'. split; [exact Hrun|]. split.
    + cbn [app max_or_zero] in Hh'. erewrite imap_ext; [exact Hh'|].
      intros k r _. cbv beta. do 2 f_equal. lia.
    + rewrite Hout. cbn [max_or_zero]. f_equal. apply imap_ext.
      intros k r _. cbv beta. do 3 f_equal. lia.
  - intros ts ids title desc now Hh Hids Hwf He Ht Hd.
    destruct (add_task_spec title desc path now w ts ids Hh (typed_ids _ _ Hids)
                Hwf He Ht Hd Hu) as (data & Hdata & Hrun & Hwf' & He' & _).
    eexists. split; [exact Hrun|]. now apply load_saved.
Qed.

(** C8: [add_task] loads the collection, builds a task with the next id,
    the given title and description, the current instant in ISO format
    followed by ["Z"], and [done] false, puts it after the tasks that were
    there, saves the whole and prints the id and the title. *)
Theorem add_appends_new_task title desc path now w ts ids :
  holds w path (PyList ts) ->
  Forall2 (fun t i => exists d, t = PyDict d /\
                                dict_get k_id d = Some (PyInt i)) ts ids ->
  wf_value (PyList ts) -> encodable_value (PyList ts) ->
  encodable title -> encodable desc ->
  usable (fs w) path ->
  let i := (max_or_zero ids + 1)%Z in
  let created_at := isoformat now ++ lit "Z" in
  let task := PyDict [ (lit "id", PyInt i);
                       (lit "title", PyStr title);
                       (lit "description", PyStr desc);
                       (lit "created_at", PyStr created_at);
                       (lit "done", PyBool false) ] in
  exists w' data,
    add_task title desc path now w = (Ret tt, w') /\
    holds w' path (PyList (ts ++ [task])) /\
    utf8_encode (dumps (PyList (ts ++ [task]))) = Some data /\
    fs w' !! path = Some (File true true data) /\
    (forall q, q <> path -> fs w' !! q = fs w !! q) /\
    stdout w' = stdout w ++ [lit "Added task " ++ int_str i ++ lit ": "
                             ++ title] /\
    length created_at = (if microsecond now =? 0 then 20%nat else 27%nat) /\
    created_at !! 4%nat = Some 45 /\ created_at !! 7%nat = Some 45 /\
    created_at !! 10%nat = Some 84 /\
    created_at !! 13%nat = Some 58 /\ created_at !! 16%nat = Some 58 /\
    last created_at = Some 90.
Proof.
  intros Hh Hids Hwf He Ht Hd Hu i created_at task.
  destruct (add_task_spec title desc path now w ts ids Hh (typed_ids _ _ Hids)
              Hwf He Ht Hd Hu) as (data & Hdata & Hrun & Hwf' & He' & _).
  eexists. exists data. split; [exact Hrun|].
  split; [now apply load_saved|]. split; [exact Hdata|].
  split; [now apply saved_lookup|].
  split; [intros q Hq; now apply saved_other|].
  split; [reflexivity|].
  subst created_at. unfold isoformat.
  destruct (microsecond now =? 0); repeat split; reflexivity.
Qed.

(** C10, amended: [add_task] does not fail on records without an id: it
    reads their id as 0.  On records whose id is missing or an integer the
    new id is one more than the largest of the ids so read; when no id
    that is present is negative, that is the largest id present plus one,
    and 1 when no record has an id. *)
Theorem add_reads_missing_id_as_zero title desc path now w ts :
  holds w path (PyList ts) ->
  Forall (fun t => exists d, t = PyDict d /\
            (dict_get k_id d = None \/
             exists i, dict_get k_id d = Some (PyInt i))) ts ->
  wf_value (PyList ts) -> encodable_value (PyList ts) ->
  encodable title -> encodable desc ->
  usable (fs w) path ->
  let next :=
    (max_or_zero (map (fun t => default 0%Z (int_id t)) ts) + 1)%Z in
  (forall d, dict_get k_id d = None ->
             get (PyDict d) k_id (PyInt 0) = Ret (PyInt 0)) /\
  (exists w',
     add_task title desc path now w = (Ret tt, w') /\
     holds w' path (PyList (ts ++ [new_task (PyInt next) title desc now])) /\
     stdout w' =
       stdout w ++ [lit "Added task " ++ int_str next ++ lit ": " ++ title]) /\
  (Forall (fun i => 0 <= i)%Z (omap int_id ts) ->
   next = (max_or_zero (omap int_id ts) + 1)%Z).
Proof.
  intros Hh Hts Hwf He Ht Hd Hu next. split; [|split].
  - intros d Hnone. cbn [get]. now rewrite Hnone.
  - destruct (add_task_spec title desc path now w ts _ Hh (ids_read_as_zero ts Hts)
                Hwf He Ht Hd Hu) as (data & Hdata & Hrun & Hwf' & He' & _).
    eexists. split; [exact Hrun|]. split; [|reflexivity].
    now apply load_saved.
  - intros Hp. destruct (foldl_max_missing ts Hp) as [Hz Hmax].
    unfold next.
    now rewrite (max_or_zero_nonneg _ Hz), (Hmax 0%Z ltac:(lia)),
      <- (max_or_zero_nonneg _ Hp).
Qed.

(** *** Listing *)

Lemma list_loop_spec ts lines :
  Forall2 (fun t l => task_line repr t = Ret l) ts lines ->
  forall w, list_loop repr ts w = (Ret tt, World (fs w) (stdout w ++ lines)).
Proof.
  induction 1 as [|t l ts lines Ht _ IH]; intros w.
  - cbn [Todo.list_loop]. rewrite app_nil_r. now destruct w.
  - cbn [Todo.list_loop]. unfold bind at 1. cbn [lift]. rewrite Ht.
    unfold bind. rewrite print_run, IH. cbn [fs stdout].
    now rewrite <- app_assoc.
Qed.

Lemma task_line_record d :
  task_line repr (PyDict d) =
  Ret (lit "["
       ++ (if truthy (default PyNone (dict_get k_done d))
           then [10003] else lit " ")
       ++ lit "] " ++ format repr (default PyNone (dict_get k_id d))
       ++ lit ": " ++ format repr (default PyNone (dict_get k_title d))
       ++ lit " - " ++ format repr (default (PyStr []) (dict_get k_description d))).
Proof. reflexivity. Qed.

(** C9, amended: [list_tasks] leaves the file system as it is.  On an
    empty collection it prints the one message ["No tasks found."];
    otherwise it prints once per task, in the order of the collection.
    What it prints for a task with an integer id and a title, whatever its
    other keys and their order, shows a mark (U+2713 when [done] is true,
    a space when not), the id, the title and the description, and ends
    with [" - "] when the description is empty or missing; it is a single
    line exactly when the title and the description have no line break,
    and it is never the message of the empty case. *)
Theorem list_prints_one_line_per_task path w ts :
  holds w path (PyList ts) -> Forall is_record ts ->
  (ts = [] ->
   list_tasks path w =
     (Ret tt, World (fs w) (stdout w ++ [lit "No tasks found."]))) /\
  (ts <> [] ->
   exists lines,
     Forall2 (fun t l => task_line repr t = Ret l) ts lines /\
     list_tasks path w = (Ret tt, World (fs w) (stdout w ++ lines))) /\
  (forall d i title desc,
     dict_get k_id d = Some (PyInt i) ->
     dict_get k_title d = Some (PyStr title) ->
     default (PyStr []) (dict_get k_description d) = PyStr desc ->
     let mark := if truthy (default PyNone (dict_get k_done d))
                 then [10003] else [32] in
     let line := lit "[" ++ mark ++ lit "] "
                 ++ int_str i ++ lit ": " ++ title ++ lit " - " ++ desc in
     task_line repr (PyDict d) = Ret line /\
     (Forall (fun c => c <> 10) line <->
      Forall (fun c => c <> 10) (title ++ desc))) /\
  (forall t l, task_line repr t = Ret l -> l <> lit "No tasks found.").
Proof.
  intros Hh Hr. split; [|split; [|split]].
  - intros ->. unfold Todo.list_tasks, bind. now rewrite Hh.
  - intros Hne.
    assert (Hl : exists lines, Forall2 (fun t l => task_line repr t = Ret l) ts lines).
    { clear Hh Hne. induction Hr as [|t ts Ht _ [lines IH]]; [exists []; constructor|].
      destruct t; try contradiction. eexists (_ :: lines).
      constructor; [apply task_line_record | exact IH]. }
    destruct Hl as [lines Hl]. exists lines. split; [exact Hl|].
    unfold Todo.list_tasks, bind at 1. rewrite Hh.
    destruct ts as [|t ts']; [contradiction|]. cbn [truthy negb].
    rewrite bool_decide_eq_false_2 by discriminate. cbn [negb].
    unfold bind. cbn [lift py_iter]. now rewrite list_loop_spec with (lines := lines).
  - intros d i title desc Hi Htitle Hdesc mark line. split.
    + rewrite task_line_record, Hi, Htitle, Hdesc. reflexivity.
    + unfold line. rewrite !Forall_app. split.
      * intros (_ & _ & _ & _ & _ & Ht & _ & Hd). now split.
      * intros [Ht Hd]. repeat split; try assumption;
          try apply int_str_no_lf;
          try (unfold mark; destruct (truthy _));
          repeat constructor; discriminate.
  - intros t l Hl. destruct t; try discriminate.
    rewrite task_line_record in Hl. injection Hl as <-. discriminate.
Qed.

(** *** Persistence *)

(** C3: saving a collection and loading it from the same place gives the
    collection back, with its items and keys in the same order, whether
    the characters of its strings are ASCII or not. *)
Theorem save_then_load_is_identity v path w :
  wf_value v -> encodable_value v -> usable (fs w) path ->
  exists w',
    save_tasks v path w = (Ret tt, w') /\
    load_tasks path w' = (Ret v, w') /\
    stdout w' = stdout w.
Proof.
  intros Hwf He Hu.
  destruct (save_then_load v path w Hwf He Hu) as (data & _ & Hs & Hl).
  eexists. split; [exact Hs|]. split; [exact Hl | reflexivity].
Qed.

(** C6, amended: [load_tasks] returns the empty list when nothing is at
    the path; on a readable file whose bytes are UTF-8 it returns the
    empty list when the text is not JSON and the decoded value when it is;
    it never changes the world.  What it cannot open is not turned into an
    empty list: the error reaches the caller. *)
Theorem load_tasks_outcomes path w :
  snd (load_tasks path w) = w /\
  (fs w !! path = None -> load_tasks path w = (Ret (PyList []), w)) /\
  (forall wr data text,
     fs w !! path = Some (File true wr data) ->
     utf8_decode data = Some text ->
     (json_loads (universal_newlines text) = None ->
      load_tasks path w = (Ret (PyList []), w)) /\
     (forall v, json_loads (universal_newlines text) = Some v ->
                load_tasks path w = (Ret v, w))) /\
  (fs w !! path = Some Dir ->
   load_tasks path w = (Raise IsADirectoryError, w)) /\
  (forall wr data, fs w !! path = Some (File false wr data) ->
   load_tasks path w = (Raise PermissionError, w)).
Proof.
  split; [apply load_tasks_world|]. split; [apply load_tasks_absent|].
  split; [|split].
  - intros wr data text Hf Hd.
    rewrite (load_tasks_file path w wr data text Hf Hd).
    split; [intros -> | intros v ->]; reflexivity.
  - intros Hf. unfold Todo.load_tasks, bind, os_path_exists, open_r.
    rewrite Hf. cbn. now rewrite Hf.
  - intros wr data Hf. unfold Todo.load_tasks, bind, os_path_exists, open_r.
    rewrite Hf. cbn. now rewrite Hf.
Qed.

(** C7: when the place cannot be written, [save_tasks] raises and
    changes nothing, and [add_task] and [complete_task], which call it, let
    the exception through without printing; when the place can be written,
    the file holds the whole collection afterwards, whatever it held
    before, and the other files are untouched.  That the file holds the
    collection is said three times over: its bytes are the UTF-8 of the
    text [json.dump] writes for the collection, with nothing before or
    after; [load_tasks] reads the collection back from it; and no other
    collection has these bytes. *)
Theorem save_fails_or_overwrites v path w :
  encodable_value v ->
  (~ writable (fs w) path ->
   (exists e, save_tasks v path w = (Raise e, w)) /\
   (forall ts zs title desc now,
      holds w path (PyList ts) ->
      Forall2 (fun t z => id_or_zero t = Some z) ts zs ->
      exists e, add_task title desc path now w = (Raise e, w)) /\
   (forall ts task_id,
      holds w path (PyList ts) -> Forall is_record ts ->
      (exists t, t ∈ ts /\ int_id t = Some task_id) ->
      exists e, complete_task task_id path w = (Raise e, w))) /\
  (writable (fs w) path ->
   exists w' data,
     save_tasks v path w = (Ret tt, w') /\
     utf8_encode (dumps v) = Some data /\
     fs w' !! path
     = Some (File match fs w !! path with
                  | Some (File r _ _) => r
                  | _ => true
                  end true data) /\
     (forall q, q <> path -> fs w' !! q = fs w !! q) /\
     stdout w' = stdout w /\
     utf8_decode data = Some (dumps v) /\
     (wf_value v -> usable (fs w) path -> holds w' path v) /\
     (forall v', wf_value v -> wf_value v' ->
                 utf8_encode (dumps v') = Some data -> v' = v)).
Proof.
  intros He. split.
  - intros Hw. split; [now apply save_tasks_refused|]. split.
    + intros ts zs title desc now Hh Hids.
      unfold Todo.add_task, bind at 1. rewrite Hh.
      unfold bind at 1. cbn [lift py_iter].
      pose proof (next_id ts zs Hids) as Hn.
      destruct (max_id ts) as [m|e0]; [|discriminate]. cbn [rbind] in Hn.
      unfold bind at 1. cbn [lift]. unfold bind at 1. rewrite Hn. cbn [lift].
      unfold bind at 1. cbn [lift append]. unfold bind.
      destruct (save_tasks_refused
                  (PyList (ts ++ [new_task (PyInt (max_or_zero zs + 1)) title desc now]))
                  path w Hw) as [e ->].
      eauto.
    + intros ts task_id Hh Hr (t0 & Hin & Hid0).
      destruct (list_find_elem_of (fun t => int_id t = Some task_id) ts t0 Hin Hid0)
        as [[i t] Hf].
      rewrite (complete_task_spec task_id path w ts Hh Hr), Hf. unfold bind.
      destruct (save_tasks_refused (PyList (<[i := mark_done t]> ts)) path w Hw)
        as [e ->].
      eauto.
  - intros Hw.
    destruct (utf8_encode_total _ (dumps_encodable _ He)) as [data Hd].
    eexists. exists data.
    split; [exact (save_tasks_ok v path w data Hw Hd)|]. split; [exact Hd|].
    split; [apply lookup_insert_eq|].
    split; [intros q Hq; now apply saved_other|].
    split; [reflexivity|].
    split; [now apply utf8_decode_encode|].
    split.
    + intros Hwf Hu. now apply load_saved.
    + intros v' Hwf Hwf' Hd'.
      apply utf8_decode_encode in Hd, Hd'.
      assert (Heq : dumps v' = dumps v) by congruence.
      pose proof (json_loads_dumps v Hwf) as H1.
      pose proof (json_loads_dumps v' Hwf') as H2.
      rewrite Heq in H2. congruence.
Qed.

End Store.

(* ===================================================================== *)
(** ** The model on the tests of the repository *)
(* ===================================================================== *)

(** The text of a small collection, character by character: two spaces
    per level, [": "] after a key, no space before a line break. *)
Example dumps_text :
  dumps (PyList [PyDict [(lit "id", PyInt 1); (lit "done", PyBool false)]])
  = lit "[" ++ [10]
    ++ lit "  {" ++ [10]
    ++ lit "    " ++ [34] ++ lit "id" ++ [34] ++ lit ": 1," ++ [10]
    ++ lit "    " ++ [34] ++ lit "done" ++ [34] ++ lit ": false" ++ [10]
    ++ lit "  }" ++ [10]
    ++ lit "]".
Proof. reflexivity. Qed.

(** Non-ASCII characters are written as they are, in UTF-8: U+00E9 is two
    bytes and U+2615 three. *)
Example dumps_bytes :
  utf8_encode (dumps (PyStr Sample.cafe_title))
  = Some (map b8 [34; 66; 117; 121; 32; 99; 97; 102; 0xC3; 0xA9; 32;
                            0xE2; 0x98; 0x95; 34]).
Proof. reflexivity. Qed.

(** [TestLoadTasks] *)

Example test_load_tasks_from_empty_file :
  Sample.load_tasks Sample.path (Sample.world_with (PyList []))
  = (Ret (PyList []), Sample.world_with (PyList [])).
Proof. vm_compute. reflexivity. Qed.

Example test_load_tasks_from_populated_file :
  Sample.load_tasks Sample.path (Sample.world_with (PyList Sample.populated))
  = (Ret (PyList Sample.populated), Sample.world_with (PyList Sample.populated)).
Proof. vm_compute. reflexivity. Qed.

Example test_load_tasks_from_nonexistent_file :
  Sample.load_tasks Sample.path Sample.empty_world
  = (Ret (PyList []), Sample.empty_world).
Proof. reflexivity. Qed.

Example test_load_tasks_from_invalid_json :
  Sample.load_tasks Sample.path Sample.garbled_world
  = (Ret (PyList []), Sample.garbled_world).
Proof. vm_compute. reflexivity. Qed.

(** [TestAddTask] *)

Example test_add_task_to_empty_file :
  let w := Sample.after (Sample.add_task (lit "Test task") (lit "Test description")
                           Sample.path Sample.noon)
             (Sample.world_with (PyList [])) in
  stdout w = [lit "Added task 1: Test task"] /\
  fst (Sample.load_tasks Sample.path w)
  = Ret (PyList [Sample.task 1 (lit "Test task") (lit "Test description")
                   (lit "2026-02-09T12:00:00Z") false]).
Proof. split; vm_compute; reflexivity. Qed.

Example test_add_task_with_special_characters :
  let w := Sample.after (Sample.add_task Sample.cafe_title Sample.cafe_desc
                           Sample.path Sample.noon)
             (Sample.world_with (PyList [])) in
  fst (Sample.load_tasks Sample.path w)
  = Ret (PyList [Sample.task 1 Sample.cafe_title Sample.cafe_desc
                   (lit "2026-02-09T12:00:00Z") false]).
Proof. vm_compute. reflexivity. Qed.

(** [TestListTasks] *)

Example test_list_empty_tasks :
  stdout (Sample.after (Sample.list_tasks Sample.path)
            (Sample.world_with (PyList [])))
  = [lit "No tasks found."].
Proof. vm_compute. reflexivity. Qed.

Example test_list_tasks_shows_completion_status :
  stdout (Sample.after (Sample.list_tasks Sample.path)
            (Sample.world_with (PyList Sample.populated)))
  = [ lit "[ ] 1: Buy groceries - Milk, bread, eggs";
      lit "[ ] 2: Fix bug - ID comparison in complete_task";
      lit "[" ++ [10003] ++ lit "] 3: Write tests - Unit tests for todo app" ].
Proof. vm_compute. reflexivity. Qed.

(** [TestCompleteTask] *)

Example test_complete_task_persists_to_file :
  let w := Sample.after (Sample.complete_task 2 Sample.path)
             (Sample.world_with (PyList Sample.populated)) in
  stdout w = [lit "Marked task 2 complete."] /\
  fst (Sample.load_tasks Sample.path w)
  = Ret (PyList
           [ Sample.task 1 (lit "Buy groceries") (lit "Milk, bread, eggs")
               (lit "2026-02-09T10:00:00Z") false;
             Sample.task 2 (lit "Fix bug") (lit "ID comparison in complete_task")
               (lit "2026-02-09T11:00:00Z") true;
             Sample.task 3 (lit "Write tests") (lit "Unit tests for todo app")
               (lit "2026-02-09T12:00:00Z") true ]).
Proof. split; vm_compute; reflexivity. Qed.

Example test_complete_already_completed_task :
  let w0 := Sample.world_with (PyList Sample.populated) in
  Sample.after (Sample.complete_task 3 Sample.path) w0
  = World (fs w0) [lit "Marked task 3 complete."].
Proof. vm_compute. reflexivity. Qed.

(** The test that the repository expects to fail: with [==] in the loop it
    passes. *)
Example test_complete_task_with_large_id :
  let w := Sample.after (Sample.complete_task 300 Sample.path)
             (Sample.world_with (PyList Sample.large)) in
  stdout w = [lit "Marked task 300 complete."] /\
  fst (Sample.load_tasks Sample.path w)
  = Ret (PyList [Sample.task 300 (lit "Large ID task") []
                   (lit "2026-02-09T10:00:00Z") true]).
Proof. split; vm_compute; reflexivity. Qed.

(** The scenario of the specification, from a world without any file. *)
Example scenario_output :
  Sample.scenario Sample.empty_world
  = (Ret tt,
     World {[ Sample.path := File true true
                (Sample.file_of
                   (PyList
                      [ new_task (PyInt 1) (lit "Buy groceries")
                          (lit "Milk, bread, eggs") Sample.noon;
                        new_task (PyInt 2) (lit "Fix bug") [] Sample.noon;
                        mark_done (new_task (PyInt 3) (lit "Write tests") []
                                     Sample.later) ])) ]}
       [ lit "Added task 1: Buy groceries";
         lit "Added task 2: Fix bug";
         lit "Added task 3: Write tests";
         lit "Marked task 3 complete.";
         lit "[ ] 1: Buy groceries - Milk, bread, eggs";
         lit "[ ] 2: Fix bug - ";
         lit "[" ++ [10003] ++ lit "] 3: Write tests - ";
         lit "No task found with id 999." ]).
Proof. vm_compute. reflexivity. Qed.

(** A lone surrogate is not text: the codec refuses it, and [save_tasks]
    raises after the file has been opened. *)
Example save_tasks_surrogate :
  fst (Sample.save_tasks (PyList Sample.broken) Sample.path Sample.empty_world)
  = Raise UnicodeEncodeError.
Proof. vm_compute. reflexivity. Qed.

(* ===================================================================== *)
(** ** The statements on the sample data *)
(* ===================================================================== *)

Ltac sample_wf :=
  cbn; repeat split; apply NoDup_ListNoDup; repeat constructor; cbn;
  intuition discriminate.

Ltac sample_encodable := unfold encodable_value; cbn; repeat constructor.

Ltac sample_holds := unfold holds; vm_compute; reflexivity.

Ltac sample_usable := first [left; reflexivity | right; eexists; reflexivity].

(** The test with the id 300: the task is found and marked. *)
Lemma complete_matches_by_value_witness :
  exists w',
    complete_task loads Sample.no_bytes 300 Sample.path
      (Sample.world_with (PyList Sample.large)) = (Ret tt, w') /\
    stdout w' = [lit "Marked task 300 complete."] /\
    holds loads w' Sample.path
      (PyList [Sample.task 300 (lit "Large ID task") []
                 (lit "2026-02-09T10:00:00Z") true]).
Proof.
  destruct (complete_matches_by_value loads Sample.no_bytes
              loads_dumps Sample.path (Sample.world_with (PyList Sample.large))
              Sample.large 300)
    as (_ & Hfound & _);
    [sample_holds | repeat constructor | sample_wf | sample_encodable
    | sample_usable |].
  destruct Hfound as (i & t & w' & Hi & _ & Hrun & Hout & Hh & _).
  { eexists. split; [left | reflexivity]. }
  destruct i as [|i]; [|destruct i; discriminate].
  injection Hi as <-. exists w'. auto.
Defined.

(** An id that no task has: the message, and the same files. *)
Lemma complete_unknown_id_is_noop_witness :
  complete_task loads Sample.no_bytes 999 Sample.path
    (Sample.world_with (PyList Sample.populated))
  = (Ret tt,
     World (fs (Sample.world_with (PyList Sample.populated)))
       [lit "No task found with id 999."]).
Proof.
  apply (complete_unknown_id_is_noop loads Sample.no_bytes Sample.path
           (Sample.world_with (PyList Sample.populated)) Sample.populated 999);
    [sample_holds | repeat constructor |].
  intros t Ht.
  repeat (apply elem_of_cons in Ht as [-> | Ht]; [discriminate|]).
  inversion Ht.
Defined.

(** Two tasks with the id 2: the first of them is marked, the other is
    not, and a second call changes no file. *)
Lemma complete_marks_first_match_only_witness :
  exists w1 w2,
    complete_task loads Sample.no_bytes 2 Sample.path
      (Sample.world_with (PyList Sample.twins)) = (Ret tt, w1) /\
    holds loads w1 Sample.path
      (PyList [ Sample.task 1 (lit "a") [] (lit "2026-02-09T10:00:00Z") false;
                Sample.task 2 (lit "b") [] (lit "2026-02-09T10:00:00Z") true;
                Sample.task 2 (lit "c") [] (lit "2026-02-09T10:00:00Z") false ]) /\
    complete_task loads Sample.no_bytes 2 Sample.path w1 = (Ret tt, w2) /\
    fs w2 = fs w1.
Proof.
  destruct (complete_marks_first_match_only loads Sample.no_bytes
              loads_dumps Sample.path (Sample.world_with (PyList Sample.twins))
              Sample.twins 2)
    as (i & d & w1 & w2 & Hi & Hid & Hfirst & Hrun & _ & Hh & _ & _ & _ & _ & _
        & Hrun2 & Hfs & _);
    [sample_holds | repeat constructor | sample_wf | sample_encodable
    | sample_usable | |].
  { eexists. split; [right; left | reflexivity]. }
  exists w1, w2.
  destruct i as [|[|[|i]]].
  - injection Hi as <-. discriminate Hid.
  - injection Hi as <-. auto.
  - exfalso. exact (Hfirst 1%nat _ ltac:(lia) eq_refl eq_refl).
  - discriminate Hi.
Defined.

(** The scenario of the specification: three calls on an empty store give
    the ids 1, 2 and 3; and after the ids 1 and 5 comes 6. *)
Lemma add_assigns_successive_ids_witness :
  (exists w',
     add_all loads Sample.no_repr Sample.no_bytes Sample.path
       Sample.three_adds Sample.empty_world = (Ret tt, w') /\
     holds loads w' Sample.path
       (PyList [ new_task (PyInt 1) (lit "Buy groceries")
                   (lit "Milk, bread, eggs") Sample.noon;
                 new_task (PyInt 2) (lit "Fix bug") [] Sample.noon;
                 new_task (PyInt 3) (lit "Write tests") [] Sample.later ]) /\
     stdout w' = [ lit "Added task 1: Buy groceries";
                   lit "Added task 2: Fix bug";
                   lit "Added task 3: Write tests" ]) /\
  (exists w',
     add_task loads Sample.no_repr Sample.no_bytes (lit "next") []
       Sample.path Sample.noon (Sample.world_with (PyList Sample.gapped))
     = (Ret tt, w') /\
     holds loads w' Sample.path
       (PyList (Sample.gapped ++ [new_task (PyInt 6) (lit "next") [] Sample.noon]))).
Proof.
  split.
  - apply (proj1 (add_assigns_successive_ids loads Sample.no_repr Sample.no_bytes
                    loads_dumps Sample.path Sample.empty_world
                    ltac:(sample_usable)) Sample.three_adds);
      [sample_holds | repeat constructor].
  - apply (proj2 (add_assigns_successive_ids loads Sample.no_repr Sample.no_bytes
                    loads_dumps Sample.path
                    (Sample.world_with (PyList Sample.gapped))
                    ltac:(sample_usable)) Sample.gapped [1; 5]%Z (lit "next") []
                    Sample.noon);
      [sample_holds | repeat (constructor; [eexists; split; reflexivity|]); constructor
      | sample_wf | sample_encodable | repeat constructor | repeat constructor].
Defined.

(** The test that adds to the three stored tasks: the new task has the id
    4 and comes last; its time stamp has the microseconds of the clock. *)
Lemma add_appends_new_task_witness :
  exists w',
    add_task loads Sample.no_repr Sample.no_bytes (lit "New task") []
      Sample.path Sample.later (Sample.world_with (PyList Sample.populated))
    = (Ret tt, w') /\
    holds loads w' Sample.path
      (PyList (Sample.populated
               ++ [Sample.task 4 (lit "New task") []
                     (lit "2026-02-09T12:30:15.250000Z") false])) /\
    stdout w' = [lit "Added task 4: New task"].
Proof.
  destruct (add_appends_new_task loads Sample.no_repr Sample.no_bytes loads_dumps
              (lit "New task") [] Sample.path Sample.later
              (Sample.world_with (PyList Sample.populated))
              Sample.populated [1; 2; 3]%Z)
    as (w' & data & Hrun & Hh & _ & _ & _ & Hout & _);
    [sample_holds
    | repeat (constructor; [eexists; split; reflexivity|]); constructor
    | sample_wf | sample_encodable | repeat constructor | repeat constructor
    | sample_usable |].
  exists w'. auto.
Defined.

(** A record without an id before a record with the id 4: the new id is
    5. *)
Lemma add_reads_missing_id_as_zero_witness :
  exists w',
    add_task loads Sample.no_repr Sample.no_bytes (lit "next") []
      Sample.path Sample.noon (Sample.world_with (PyList Sample.partial))
    = (Ret tt, w') /\
    holds loads w' Sample.path
      (PyList (Sample.partial
               ++ [new_task (PyInt 5) (lit "next") [] Sample.noon])) /\
    stdout w' = [lit "Added task 5: next"] /\
    max_or_zero (omap int_id Sample.partial) = 4%Z.
Proof.
  destruct (add_reads_missing_id_as_zero loads Sample.no_repr Sample.no_bytes
              loads_dumps (lit "next") [] Sample.path Sample.noon
              (Sample.world_with (PyList Sample.partial)) Sample.partial)
    as (_ & (w' & Hrun & Hh & Hout) & Hmax);
    [sample_holds | | sample_wf | sample_encodable | repeat constructor
    | repeat constructor | sample_usable |].
  - constructor; [eexists; split; [reflexivity | left; reflexivity]|].
    constructor; [|constructor].
    eexists; split; [reflexivity|]. right. exists 4%Z. reflexivity.
  - exists w'. split; [exact Hrun|]. split; [exact Hh|]. split; [exact Hout|].
    assert (H0 : Forall (fun i => 0 <= i)%Z (omap int_id Sample.partial))
      by (repeat constructor; discriminate).
    specialize (Hmax H0). cbv zeta in Hmax.
    change (max_or_zero (map (fun t => default 0%Z (int_id t)) Sample.partial))
      with 4%Z in Hmax.
    lia.
Defined.

(** The three stored tasks are listed in order, the third with the mark;
    without a file the message is printed. *)
Lemma list_prints_one_line_per_task_witness :
  list_tasks loads Sample.no_repr Sample.path
    (Sample.world_with (PyList Sample.populated))
  = (Ret tt,
     World (fs (Sample.world_with (PyList Sample.populated)))
       [ lit "[ ] 1: Buy groceries - Milk, bread, eggs";
         lit "[ ] 2: Fix bug - ID comparison in complete_task";
         lit "[" ++ [10003] ++ lit "] 3: Write tests - Unit tests for todo app" ]) /\
  list_tasks loads Sample.no_repr Sample.path Sample.empty_world
  = (Ret tt, World ∅ [lit "No tasks found."]).
Proof.
  split.
  - destruct (list_prints_one_line_per_task loads Sample.no_repr Sample.path
                (Sample.world_with (PyList Sample.populated)) Sample.populated)
      as (_ & Hlines & _); [sample_holds | repeat constructor |].
    destruct Hlines as (lines & HF & Hrun); [discriminate|].
    rewrite Hrun. unfold Sample.populated in HF.
    repeat match goal with
           | H : Forall2 _ (_ :: _) _ |- _ => inversion H; clear H; subst
           | H : Forall2 _ [] _ |- _ => inversion H; clear H; subst
           | H : task_line _ _ = Ret _ |- _ =>
               vm_compute in H; injection H as <-
           end.
    vm_compute. reflexivity.
  - destruct (list_prints_one_line_per_task loads Sample.no_repr Sample.path
                Sample.empty_world [])
      as (Hempty & _); [sample_holds | constructor |].
    exact (Hempty eq_refl).
Defined.

(** The strings of the test with accents and U+2615 come back as they
    were saved. *)
Lemma save_then_load_is_identity_witness :
  exists w',
    save_tasks Sample.no_bytes (PyList Sample.cafe) Sample.path
      Sample.empty_world = (Ret tt, w') /\
    load_tasks loads Sample.path w' = (Ret (PyList Sample.cafe), w').
Proof.
  destruct (save_then_load_is_identity loads Sample.no_bytes loads_dumps
              (PyList Sample.cafe) Sample.path Sample.empty_world)
    as (w' & Hs & Hl & _); [sample_wf | sample_encodable | sample_usable |].
  exists w'. auto.
Defined.

(** Without a file, with a text that is not JSON and with the three
    stored tasks. *)
Lemma load_tasks_outcomes_witness :
  load_tasks loads Sample.path Sample.empty_world
  = (Ret (PyList []), Sample.empty_world) /\
  load_tasks loads Sample.path Sample.garbled_world
  = (Ret (PyList []), Sample.garbled_world) /\
  load_tasks loads Sample.path (Sample.world_with (PyList Sample.populated))
  = (Ret (PyList Sample.populated), Sample.world_with (PyList Sample.populated)).
Proof.
  split; [|split].
  - exact (proj1 (proj2 (load_tasks_outcomes loads Sample.path Sample.empty_world))
             eq_refl).
  - refine (proj1 (proj1 (proj2 (proj2 (load_tasks_outcomes loads Sample.path
                      Sample.garbled_world)))
                     true _ (lit "invalid json {") eq_refl _) _);
      vm_compute; reflexivity.
  - refine (proj2 (proj1 (proj2 (proj2 (load_tasks_outcomes loads Sample.path
                      (Sample.world_with (PyList Sample.populated)))))
                     true _ (dumps (PyList Sample.populated)) eq_refl _) _ _);
      vm_compute; reflexivity.
Defined.

(** A file that may not be written: saving raises and so does adding; a
    file that may: it holds the new collection afterwards. *)
Lemma save_fails_or_overwrites_witness :
  (exists e,
     save_tasks Sample.no_bytes (PyList Sample.large) Sample.path
       (Sample.read_only_world (PyList Sample.populated))
     = (Raise e, Sample.read_only_world (PyList Sample.populated))) /\
  (exists e,
     add_task loads Sample.no_repr Sample.no_bytes (lit "New task") []
       Sample.path Sample.noon
       (Sample.read_only_world (PyList Sample.populated))
     = (Raise e, Sample.read_only_world (PyList Sample.populated))) /\
  (exists w' data,
     save_tasks Sample.no_bytes (PyList Sample.large) Sample.path
       (Sample.world_with (PyList Sample.populated)) = (Ret tt, w') /\
     fs w' !! Sample.path = Some (File true true data) /\
     data = Sample.file_of (PyList Sample.large) /\
     utf8_decode data
     = Some (lit "[" ++ [10]
             ++ lit "  {" ++ [10]
             ++ lit "    " ++ [34] ++ lit "id" ++ [34] ++ lit ": 300," ++ [10]
             ++ lit "    " ++ [34] ++ lit "title" ++ [34] ++ lit ": "
             ++ [34] ++ lit "Large ID task" ++ [34] ++ lit "," ++ [10]
             ++ lit "    " ++ [34] ++ lit "description" ++ [34] ++ lit ": "
             ++ [34; 34] ++ lit "," ++ [10]
             ++ lit "    " ++ [34] ++ lit "created_at" ++ [34] ++ lit ": "
             ++ [34] ++ lit "2026-02-09T10:00:00Z" ++ [34] ++ lit "," ++ [10]
             ++ lit "    " ++ [34] ++ lit "done" ++ [34] ++ lit ": false"
             ++ [10]
             ++ lit "  }" ++ [10]
             ++ lit "]") /\
     holds loads w' Sample.path (PyList Sample.large) /\
     (utf8_encode (dumps (PyList Sample.populated)) = Some data -> False)).
Proof.
  assert (Hro : ~ writable (fs (Sample.read_only_world (PyList Sample.populated)))
                  Sample.path).
  { intros [H | (r & data & H)]; discriminate H. }
  assert (Hwf : wf_value (PyList Sample.large)) by sample_wf.
  assert (Hwf' : wf_value (PyList Sample.populated)) by sample_wf.
  destruct (save_fails_or_overwrites loads Sample.no_repr Sample.no_bytes
              loads_dumps (PyList Sample.large) Sample.path
              (Sample.read_only_world (PyList Sample.populated))
              ltac:(sample_encodable)) as [Hfail _].
  destruct (Hfail Hro) as (Hsave & Hadd & _).
  destruct (save_fails_or_overwrites loads Sample.no_repr Sample.no_bytes
              loads_dumps (PyList Sample.large) Sample.path
              (Sample.world_with (PyList Sample.populated))
              ltac:(sample_encodable)) as [_ Hok].
  destruct Hok as (w' & data & Hrun & Hdata & Hfile & _ & _ & Htext & Hh & Hone);
    [right; do 2 eexists; reflexivity|].
  split; [exact Hsave|]. split.
  - apply (Hadd Sample.populated [1; 2; 3]%Z); [sample_holds|].
    repeat constructor.
  - exists w', data. split; [exact Hrun|]. split; [exact Hfile|].
    split; [unfold Sample.file_of; now rewrite Hdata|].
    split; [rewrite Htext; reflexivity|].
    split; [apply Hh; [exact Hwf | sample_usable]|].
    intros Hp. specialize (Hone _ Hwf Hwf' Hp). discriminate Hone.
Defined.

(** C6 as stated fails: a directory at the path and a file that is not
    UTF-8 both make [load_tasks] raise. *)
Lemma load_tasks_can_raise :
  load_tasks loads Sample.path Sample.directory_world
  = (Raise IsADirectoryError, Sample.directory_world) /\
  load_tasks loads Sample.path Sample.binary_world
  = (Raise UnicodeDecodeError, Sample.binary_world).
Proof. split; vm_compute; reflexivity. Qed.

(** C9 as stated fails: [add_task] stores a title with a line break as it
    is, and [list_tasks] then prints two lines for the one task. *)
Lemma list_tasks_can_print_two_lines :
  load_tasks loads Sample.path
    (Sample.after (Sample.add_task (lit "a" ++ [10] ++ lit "b") []
                     Sample.path Sample.noon) Sample.empty_world)
  = (Ret (PyList [new_task (PyInt 1) (lit "a" ++ [10] ++ lit "b") []
                    Sample.noon]),
     Sample.after (Sample.add_task (lit "a" ++ [10] ++ lit "b") []
                     Sample.path Sample.noon) Sample.empty_world) /\
  list_tasks loads Sample.no_repr Sample.path
    (Sample.world_with
       (PyList [new_task (PyInt 1) (lit "a" ++ [10] ++ lit "b") []
                  Sample.noon]))
  = (Ret tt,
     World (fs (Sample.world_with
                  (PyList [new_task (PyInt 1) (lit "a" ++ [10] ++ lit "b") []
                             Sample.noon])))
       [lit "[ ] 1: a" ++ [10] ++ lit "b - "]) /\
  In 10 (lit "[ ] 1: a" ++ [10] ++ lit "b - ").
Proof.
  split; [vm_compute; reflexivity|].
  split; [vm_compute; reflexivity|].
  vm_compute. tauto.
Qed.

(** C10 as stated fails: next to a record without an id, a negative id is
    less than the 0 that the missing one is read as.  With the ids missing
    and -3 the new id is 1, and not -3 + 1. *)
Lemma add_task_missing_id_beats_negative :
  fst (add_task loads Sample.no_repr Sample.no_bytes (lit "next") []
         Sample.path Sample.noon
         (Sample.world_with
            (PyList [ PyDict [(lit "title", PyStr (lit "no id"))];
                      Sample.task (-3) (lit "b") []
                        (lit "2026-02-09T10:00:00Z") false ])))
  = Ret tt /\
  stdout (snd (add_task loads Sample.no_repr Sample.no_bytes (lit "next") []
                 Sample.path Sample.noon
                 (Sample.world_with
                    (PyList [ PyDict [(lit "title", PyStr (lit "no id"))];
                              Sample.task (-3) (lit "b") []
                                (lit "2026-02-09T10:00:00Z") false ]))))
  = [lit "Added task 1: next"] /\
  (max_or_zero
     (omap int_id [ PyDict [(lit "title", PyStr (lit "no id"))];
                    Sample.task (-3) (lit "b") []
                      (lit "2026-02-09T10:00:00Z") false ]) + 1
   = -2)%Z.
Proof. repeat split; vm_compute; reflexivity. Qed.

(* ===================================================================== *)
(** * Further properties of the operations *)
(* ===================================================================== *)

(* ===================================================================== *)
(** ** What the operations leave alone *)
(* ===================================================================== *)

(** A relation between the world before and the world after that every
    step of a computation respects is respected by the whole. *)
Section Keeps.

Variable R : world -> world -> Prop.
Hypothesis R_refl : forall w, R w w.
Hypothesis R_trans : forall a b c, R a b -> R b c -> R a c.
Hypothesis R_print : forall s w, R w (snd (print s w)).

Variable json_loads : str -> option value.
Variable repr : value -> str.
Variable flushed : str -> list byte.

Lemma keeps_bind {A B} (m : M A) (k : A -> M B) :
  (forall w, R w (snd (m w))) -> (forall a w, R w (snd (k a w))) ->
  forall w, R w (snd (bind m k w)).
Proof.
  intros Hm Hk w. unfold bind. specialize (Hm w).
  destruct (m w) as [[a|e] w1]; cbn [snd] in *; [|exact Hm].
  eapply R_trans; [exact Hm | apply Hk].
Qed.

Lemma keeps_load path w : R w (snd (load_tasks json_loads path w)).
Proof. rewrite load_tasks_world. apply R_refl. Qed.

Lemma keeps_list_loop ts : forall w, R w (snd (list_loop repr ts w)).
Proof.
  induction ts as [|t ts IH]; intros w; cbn [list_loop]; [apply R_refl|].
  apply keeps_bind; [intros; apply R_refl|]. intros line w1.
  apply keeps_bind; [apply R_print | intros; apply IH].
Qed.

Lemma keeps_list path w : R w (snd (list_tasks json_loads repr path w)).
Proof.
  unfold list_tasks. apply keeps_bind; [apply keeps_load|]. intros tasks w1.
  destruct (negb (truthy tasks)); [apply R_print|].
  apply keeps_bind; [intros; apply R_refl | intros; apply keeps_list_loop].
Qed.

Variable path : string.
Hypothesis R_open_w : forall w, R w (snd (open_w path w)).
Hypothesis R_put : forall data w, R w (snd (put path data w)).

Lemma keeps_save v w : R w (snd (save_tasks flushed v path w)).
Proof.
  unfold save_tasks. apply keeps_bind; [apply R_open_w|]. intros _ w1.
  unfold json_dump. destruct (utf8_encode (dumps v)); [apply R_put|].
  apply keeps_bind; [apply R_put | intros; apply R_refl].
Qed.

Lemma keeps_add title desc now w :
  R w (snd (add_task json_loads repr flushed title desc path now w)).
Proof.
  unfold add_task. apply keeps_bind; [apply keeps_load|]. intros tasks w1.
  repeat (apply keeps_bind; [intros; apply R_refl|]; intros).
  apply keeps_bind; [intros; apply keeps_save | intros; apply R_print].
Qed.

Lemma keeps_complete_loop task_id tasks ts :
  forall i w, R w (snd (complete_loop flushed task_id path tasks i ts w)).
Proof.
  induction ts as [|t ts IH]; intros i w; cbn [complete_loop]; [apply R_print|].
  apply keeps_bind; [intros; apply R_refl|]. intros x w1.
  destruct (py_eq x (PyInt task_id)); [|apply IH].
  apply keeps_bind; [intros; apply R_refl|]. intros t' w2.
  apply keeps_bind; [intros; apply keeps_save | intros; apply R_print].
Qed.

Lemma keeps_complete task_id w :
  R w (snd (complete_task json_loads flushed task_id path w)).
Proof.
  unfold complete_task. apply keeps_bind; [apply keeps_load|]. intros tasks w1.
  apply keeps_bind; [intros; apply R_refl | intros; apply keeps_complete_loop].
Qed.

End Keeps.

Section Footprint.

Variable json_loads : str -> option value.
Variable repr : value -> str.
Variable flushed : str -> list byte.

(** X1: no operation touches a file other than the one it is given,
    whatever that file holds and whether the operation returns or
    raises. *)
Theorem other_files_untouched path q w v title desc now task_id :
  q <> path ->
  fs (snd (save_tasks flushed v path w)) !! q = fs w !! q /\
  fs (snd (add_task json_loads repr flushed title desc path now w)) !! q
  = fs w !! q /\
  fs (snd (complete_task json_loads flushed task_id path w)) !! q
  = fs w !! q /\
  fs (snd (list_tasks json_loads repr path w)) !! q = fs w !! q.
Proof.
  intros Hq.
  set (R := fun a b : world => fs b !! q = fs a !! q).
  assert (Hrefl : forall a, R a a) by reflexivity.
  assert (Htrans : forall a b c, R a b -> R b c -> R a c)
    by (unfold R; intros a b c H1 H2; congruence).
  assert (Hprint : forall s a, R a (snd (print s a))) by reflexivity.
  assert (Hopen : forall a, R a (snd (open_w path a))).
  { intros a. unfold R, open_w.
    destruct (fs a !! path) as [[r [|] d| |]|]; cbn; try reflexivity;
      now apply lookup_insert_ne. }
  assert (Hput : forall d a, R a (snd (put path d a))).
  { intros d a. unfold R, put, set_fs. cbn.
    destruct (fs a !! path) as [[r wr d0| |]|]; try reflexivity.
    now apply lookup_insert_ne. }
  repeat split.
  - exact (keeps_save R Hrefl Htrans flushed path Hopen Hput v w).
  - exact (keeps_add R Hrefl Htrans Hprint json_loads repr flushed path Hopen Hput
             title desc now w).
  - exact (keeps_complete R Hrefl Htrans Hprint json_loads flushed path Hopen Hput
             task_id w).
  - exact (keeps_list R Hrefl Htrans Hprint json_loads repr path w).
Qed.


Lemma save_tasks_stdout v path w :
  stdout (snd (save_tasks flushed v path w)) = stdout w.
Proof.
  apply (keeps_save (fun a b => stdout b = stdout a)); try reflexivity.
  - intros a b c H1 H2. congruence.
  - intros a. unfold open_w.
    destruct (fs a !! path) as [[r [|] d| |]|]; reflexivity.
Qed.

(** X2: [list_tasks] and [load_tasks] never change a file, whatever the
    file holds and whether they return or raise; and no operation removes
    anything from what has been printed: [add_task], [complete_task] and
    [list_tasks] only add to it, [save_tasks] and [load_tasks] leave it as
    it is. *)
Theorem reading_changes_no_file path w v title desc now task_id :
  fs (snd (list_tasks json_loads repr path w)) = fs w /\
  snd (load_tasks json_loads path w) = w /\
  stdout (snd (save_tasks flushed v path w)) = stdout w /\
  stdout w `prefix_of`
    stdout (snd (list_tasks json_loads repr path w)) /\
  stdout w `prefix_of`
    stdout (snd (add_task json_loads repr flushed title desc path now w)) /\
  stdout w `prefix_of`
    stdout (snd (complete_task json_loads flushed task_id path w)).
Proof.
  split; [|split; [|split]].
  - apply (keeps_list (fun a b => fs b = fs a)); try reflexivity.
    intros a b c H1 H2. congruence.
  - apply load_tasks_world.
  - apply save_tasks_stdout.
  - set (R := fun a b : world => stdout a `prefix_of` stdout b).
    assert (Hrefl : forall a, R a a) by (intros a; unfold R; reflexivity).
    assert (Htrans : forall a b c, R a b -> R b c -> R a c)
      by (unfold R; intros a b c H1 H2; etransitivity; eassumption).
    assert (Hprint : forall s a, R a (snd (print s a)))
      by (intros s a; apply prefix_app_r; reflexivity).
    assert (Hopen : forall a, R a (snd (open_w path a))).
    { intros a. unfold R, open_w.
      destruct (fs a !! path) as [[r [|] d| |]|]; reflexivity. }
    assert (Hput : forall d a, R a (snd (put path d a)))
      by (intros d a; unfold R; reflexivity).
    repeat split.
    + exact (keeps_list R Hrefl Htrans Hprint json_loads repr path w).
    + exact (keeps_add R Hrefl Htrans Hprint json_loads repr flushed path
               Hopen Hput title desc now w).
    + exact (keeps_complete R Hrefl Htrans Hprint json_loads flushed path
               Hopen Hput task_id w).
Qed.

(** *** Failures *)









End Footprint.

(* ===================================================================== *)
(** ** Stores that are not what the program writes *)
(* ===================================================================== *)

Lemma foldl_max_ge c l x : x ∈ l -> (x <= foldl Z.max c l)%Z.
Proof.
  revert c. induction l as [|y l IH]; intros c Hx; [inversion Hx|].
  cbn [foldl]. apply elem_of_cons in Hx as [->|Hx]; [|now apply IH].
  pose proof (foldl_max_le (Z.max c y) l). lia.
Qed.

Lemma max_or_zero_ge ids x : x ∈ ids -> (x <= max_or_zero ids)%Z.
Proof.
  destruct ids as [|i ids]; [inversion 1|]. cbn [max_or_zero].
  intros Hx. apply elem_of_cons in Hx as [->|Hx];
    [apply foldl_max_le | now apply foldl_max_ge].
Qed.

Lemma saved_saved m path d d' : saved (saved m path d) path d' = saved m path d'.
Proof.
  unfold saved. rewrite lookup_insert_eq, insert_insert_eq.
  reflexivity.
Qed.

Section Edges.

Variable json_loads : str -> option value.
Variable repr : value -> str.
Variable flushed : str -> list byte.

Hypothesis json_loads_dumps :
  forall v, wf_value v -> json_loads (dumps v) = Some v.

Abbreviation load_tasks := (Todo.load_tasks json_loads).
Abbreviation save_tasks := (Todo.save_tasks flushed).
Abbreviation add_task := (Todo.add_task json_loads repr flushed).
Abbreviation list_tasks := (Todo.list_tasks json_loads repr).
Abbreviation complete_task := (Todo.complete_task json_loads flushed).
Abbreviation complete_loop := (Todo.complete_loop flushed).
Abbreviation holds := (Todo.holds json_loads).

(** X4: when [load_tasks] raises, [add_task], [list_tasks] and
    [complete_task] raise the same exception and change nothing.  That is
    the case of a readable file whose bytes are not UTF-8: the
    [UnicodeDecodeError] of the read is not the [JSONDecodeError] that
    [load_tasks] catches, so such a file is never taken for an empty store
    and never overwritten. *)
Theorem load_failure_reaches_the_caller path w :
  (forall e,
     load_tasks path w = (Raise e, w) ->
     forall title desc now task_id,
       add_task title desc path now w = (Raise e, w) /\
       list_tasks path w = (Raise e, w) /\
       complete_task task_id path w = (Raise e, w)) /\
  (forall wr data,
     fs w !! path = Some (File true wr data) ->
     utf8_decode data = None ->
     load_tasks path w = (Raise UnicodeDecodeError, w)).
Proof.
  split.
  - intros e He title desc now task_id.
    unfold Todo.add_task, Todo.list_tasks, Todo.complete_task, bind.
    now rewrite He.
  - intros wr data Hf Hd.
    unfold Todo.load_tasks, bind, os_path_exists, open_r, read.
    rewrite Hf. cbn. rewrite Hf. cbn. now rewrite Hd.
Qed.

(** X5: a readable and writable file whose text is not JSON is taken for
    an empty store.  [list_tasks] and [complete_task] say so and leave the
    file as it is; [add_task] replaces it: afterwards the file holds the
    new task alone, with the id 1, and what it held before is gone. *)
Theorem invalid_json_is_replaced_by_add path w data text title desc now :
  fs w !! path = Some (File true true data) ->
  utf8_decode data = Some text ->
  json_loads (universal_newlines text) = None ->
  encodable title -> encodable desc ->
  list_tasks path w
  = (Ret tt, World (fs w) (stdout w ++ [lit "No tasks found."])) /\
  (forall task_id,
     complete_task task_id path w
     = (Ret tt, World (fs w)
                  (stdout w ++ [lit "No task found with id "
                                ++ int_str task_id ++ lit "."]))) /\
  exists w' data',
    add_task title desc path now w = (Ret tt, w') /\
    utf8_encode (dumps (PyList [new_task (PyInt 1) title desc now]))
    = Some data' /\
    fs w' !! path = Some (File true true data') /\
    holds w' path (PyList [new_task (PyInt 1) title desc now]).
Proof.
  intros Hf Hd Hj Ht Hde.
  assert (Hh : holds w path (PyList [])).
  { unfold Todo.holds. rewrite (load_tasks_file json_loads path w true data text Hf Hd).
    now rewrite Hj. }
  assert (Hu : usable (fs w) path) by (right; eauto).
  split; [|split].
  - unfold Todo.list_tasks, bind. now rewrite Hh.
  - intros task_id.
    now rewrite (complete_task_spec json_loads flushed task_id path w [] Hh
                   ltac:(constructor)).
  - destruct (add_task_spec json_loads repr flushed
                title desc path now w [] [] Hh ltac:(constructor) I
                ltac:(constructor) Ht Hde Hu)
      as (data' & Hdata & Hrun & Hwf & He & _).
    eexists. exists data'. split; [exact Hrun|]. split; [exact Hdata|].
    split; [now apply saved_lookup|].
    now apply (load_saved json_loads json_loads_dumps).
Qed.

(** X6: [add_task] keeps the ids of a store apart.  On records with
    integer ids the new id is greater than every id of the store; so ids
    that were all different are all different afterwards, and ids that
    were all positive are all positive afterwards. *)
Theorem add_keeps_ids_apart title desc path now w ts ids :
  holds w path (PyList ts) ->
  Forall2 (fun t i => exists d, t = PyDict d /\
                                dict_get k_id d = Some (PyInt i)) ts ids ->
  wf_value (PyList ts) -> encodable_value (PyList ts) ->
  encodable title -> encodable desc ->
  usable (fs w) path ->
  exists w' i,
    add_task title desc path now w = (Ret tt, w') /\
    holds w' path (PyList (ts ++ [new_task (PyInt i) title desc now])) /\
    Forall2 (fun t i => exists d, t = PyDict d /\
                                  dict_get k_id d = Some (PyInt i))
      (ts ++ [new_task (PyInt i) title desc now]) (ids ++ [i]) /\
    Forall (fun j => j < i)%Z ids /\
    (NoDup ids -> NoDup (ids ++ [i])) /\
    (Forall (fun j => 0 < j)%Z ids -> Forall (fun j => 0 < j)%Z (ids ++ [i])).
Proof.
  intros Hh Hids Hwf He Ht Hd Hu.
  destruct (add_task_spec json_loads repr flushed
              title desc path now w ts ids Hh (typed_ids _ _ Hids) Hwf He Ht Hd Hu)
    as (data & Hdata & Hrun & Hwf' & He' & _).
  assert (Hlt : Forall (fun j => j < max_or_zero ids + 1)%Z ids).
  { apply Forall_forall. intros j Hj. pose proof (max_or_zero_ge ids j Hj). lia. }
  eexists. exists (max_or_zero ids + 1)%Z.
  split; [exact Hrun|]. split; [now apply (load_saved json_loads json_loads_dumps)|].
  split; [|split; [exact Hlt|split]].
  - apply Forall2_app; [exact Hids|]. constructor; [|constructor].
    eexists. split; reflexivity.
  - intros Hnd. apply NoDup_app. split; [exact Hnd|].
    split; [|apply NoDup_singleton].
    intros x Hx Hx'. apply list_elem_of_singleton in Hx'. subst x.
    rewrite Forall_forall in Hlt. specialize (Hlt _ Hx). lia.
  - intros Hpos. apply Forall_app. split; [exact Hpos|].
    constructor; [|constructor].
    destruct ids as [|j ids']; [reflexivity|].
    apply Forall_cons in Hpos as [Hj _]. apply Forall_cons in Hlt as [Hlt _]. lia.
Qed.

(** *** The new task can be completed at once *)



(** *** The loop of [complete_task] *)

Lemma complete_loop_skip task_id path tasks pre rest :
  Forall is_record pre ->
  Forall (fun u => int_id u <> Some task_id) pre ->
  forall i w,
    complete_loop task_id path tasks i (pre ++ rest) w
    = complete_loop task_id path tasks (i + length pre) rest w.
Proof.
  intros Hrec. induction Hrec as [|t pre Ht _ IH]; intros Hno i w.
  - cbn. now rewrite Nat.add_0_r.
  - apply Forall_cons in Hno as [Hn Hno].
    destruct t as [| | | | |d]; try contradiction.
    cbn [app Todo.complete_loop length]. unfold bind at 1. cbn [lift get].
    rewrite record_test. rewrite bool_decide_eq_false_2 by exact Hn.
    rewrite (IH Hno). f_equal. lia.
Qed.

(** X8: [complete_task] looks no further than the first match.  When the
    tasks before the first task with the id are records, that task is
    marked and the store saved whatever comes after it, records or not;
    and when an item that is no record comes before any match, the loop
    stops there with an [AttributeError] and nothing is written. *)
Theorem complete_looks_no_further task_id path w pre x post :
  holds w path (PyList (pre ++ x :: post)) ->
  Forall is_record pre ->
  Forall (fun u => int_id u <> Some task_id) pre ->
  (int_id x = Some task_id ->
   wf_value (PyList (pre ++ x :: post)) ->
   encodable_value (PyList (pre ++ x :: post)) ->
   usable (fs w) path ->
   exists w',
     complete_task task_id path w = (Ret tt, w') /\
     holds w' path (PyList (pre ++ mark_done x :: post)) /\
     stdout w'
     = stdout w ++ [lit "Marked task " ++ int_str task_id ++ lit " complete."]) /\
  (~ is_record x ->
   complete_task task_id path w = (Raise AttributeError, w)).
Proof.
  intros Hh Hrec Hno. split.
  - intros Hx Hwf He Hu.
    assert (Hwf' : wf_value (PyList (pre ++ mark_done x :: post))).
    { apply wf_value_list. apply wf_value_list in Hwf.
      rewrite Forall_app, Forall_cons in *. destruct Hwf as (? & ? & ?).
      repeat split; auto using mark_done_wf. }
    assert (He' : encodable_value (PyList (pre ++ mark_done x :: post))).
    { apply encodable_value_list. apply encodable_value_list in He.
      rewrite Forall_app, Forall_cons in *. destruct He as (? & ? & ?).
      repeat split; auto using mark_done_encodable. }
    destruct (save_then_load json_loads flushed json_loads_dumps _ path w Hwf' He' Hu)
      as (data & Hdata & Hsave & Hh').
    exists (World (saved (fs w) path data)
              (stdout w ++ [lit "Marked task " ++ int_str task_id
                            ++ lit " complete."])).
    split; [|split; [|reflexivity]];
      [|now apply (load_saved json_loads json_loads_dumps)].
    unfold Todo.complete_task, bind at 1. rewrite Hh.
    unfold bind at 1. cbn [lift py_iter].
    rewrite (complete_loop_skip task_id path _ pre (x :: post) Hrec Hno).
    destruct x as [| | | | |d]; try discriminate Hx.
    cbn [Todo.complete_loop]. unfold bind at 1. cbn [lift get].
    rewrite record_test. rewrite bool_decide_eq_true_2 by exact Hx.
    unfold bind at 1. cbn [lift setitem stored plus].
    rewrite insert_app_r_alt by lia. rewrite Nat.sub_diag. cbn [insert list_insert].
    change (PyDict (dict_set k_done (PyBool true) d)) with (mark_done (PyDict d)).
    unfold bind. rewrite Hsave. now rewrite print_run.
  - intros Hx.
    unfold Todo.complete_task, bind at 1. rewrite Hh.
    unfold bind at 1. cbn [lift py_iter].
    rewrite (complete_loop_skip task_id path _ pre (x :: post) Hrec Hno).
    destruct x as [| | | | |d]; try reflexivity. now destruct Hx.
Qed.

(** *** The loop of [list_tasks] *)




(** *** A store that is no list *)

(** X10: a file that holds a JSON value which is no list is never
    changed.  [add_task] raises, a [TypeError] on null, a boolean or a
    number and an [AttributeError] on a string or an object; so does
    [complete_task], except on the empty string and the empty object,
    where it reports the id missing; and [list_tasks] reports no tasks on
    the values that Python reads as false and raises in the same way on
    the others. *)
Theorem store_that_is_no_list_is_left_alone path w v :
  holds w path v ->
  (forall l, v <> PyList l) ->
  let e := match v with
           | PyStr _ | PyDict _ => AttributeError
           | _ => TypeError
           end in
  (forall title desc now,
     add_task title desc path now w = (Raise e, w)) /\
  (forall task_id,
     complete_task task_id path w
     = match v with
       | PyStr [] | PyDict [] =>
           print (lit "No task found with id " ++ int_str task_id ++ lit ".") w
       | _ => (Raise e, w)
       end) /\
  list_tasks path w
  = (if truthy v then (Raise e, w) else print (lit "No tasks found.") w).
Proof.
  intros Hh Hv e. subst e. split; [|split].
  - intros title desc now. unfold Todo.add_task, bind at 1. rewrite Hh.
    destruct v as [|b|z|s|l|d]; try reflexivity.
    + now destruct s.
    + now destruct (Hv l).
    + destruct d as [|[k x] d]; reflexivity.
  - intros task_id. unfold Todo.complete_task, bind at 1. rewrite Hh.
    destruct v as [|b|z|s|l|d]; try reflexivity.
    + now destruct s.
    + now destruct (Hv l).
    + destruct d as [|[k x] d]; reflexivity.
  - unfold Todo.list_tasks, bind at 1. rewrite Hh.
    destruct v as [|b|z|s|l|d]; try reflexivity.
    + now destruct b.
    + cbn [truthy]. now destruct (z =? 0)%Z.
    + now destruct s.
    + now destruct (Hv l).
    + destruct d as [|[k x] d]; reflexivity.
Qed.

(** *** An id that is not a number *)

Lemma py_gt_raises a : forall b e, py_gt a b = Raise e -> e = TypeError.
Proof.
  induction a as [|x|x|x|xs IH|d _] using value_induction; intros b e;
    try (cbn; congruence).
  - cbn. destruct (as_int b); congruence.
  - cbn. destruct (as_int b); congruence.
  - destruct b; cbn; congruence.
  - destruct b as [| | | |ys|]; try (cbn; congruence).
    cbn [py_gt]. revert ys.
    induction IH as [|x xs Hx _ IHxs]; intros ys; [congruence|].
    destruct ys as [|y ys]; [congruence|].
    destruct (py_eq x y); [apply IHxs | apply Hx].
Qed.

Lemma py_gt_kind a b r :
  py_gt a b = Ret r -> (as_int a = None <-> as_int b = None).
Proof.
  destruct a, b; cbn; try congruence; intros _; split; congruence.
Qed.

Lemma max_loop_no_number ts :
  Forall is_record ts ->
  forall cur,
    as_int cur = None \/ Exists (fun t => id_or_zero t = None) ts ->
    max_loop cur ts = Raise TypeError \/
    exists m, max_loop cur ts = Ret m /\ as_int m = None.
Proof.
  induction 1 as [|t ts Ht _ IH]; intros cur Hbad.
  - destruct Hbad as [Hc | Hex]; [right; eauto | inversion Hex].
  - destruct t as [| | | | |d]; try contradiction.
    cbn [max_loop get rbind].
    set (x := default (PyInt 0) (dict_get k_id d)) in *.
    destruct (py_gt x cur) as [b|e] eqn:Hgt.
    + cbn [rbind]. apply IH. pose proof (py_gt_kind _ _ _ Hgt) as Hk.
      destruct Hbad as [Hc | Hex].
      * left. destruct b; tauto.
      * apply Exists_cons in Hex as [Hx | Hex]; [|now right].
        left. change (as_int x = None) in Hx. destruct b; tauto.
    + left. cbn. now rewrite (py_gt_raises _ _ _ Hgt).
Qed.

Lemma next_id_no_number ts :
  Forall is_record ts ->
  Exists (fun t => id_or_zero t = None) ts ->
  rbind (max_id ts) add_one = Raise TypeError.
Proof.
  intros Hrec Hex. destruct Hrec as [|t ts Ht Hrec]; [inversion Hex|].
  destruct t as [| | | | |d]; try contradiction.
  cbn [max_id get rbind].
  destruct (max_loop_no_number ts Hrec (default (PyInt 0) (dict_get k_id d)))
    as [-> | (m & -> & Hm)]; [|reflexivity|].
  - apply Exists_cons in Hex as [Hx | Hex]; [now left | now right].
  - cbn. unfold add_one. now rewrite Hm.
Qed.

(** X11: an id that is null, a string, a list or an object stops
    [add_task].  When the store is a list of records and the id of one of
    them is such a value, [add_task] raises a [TypeError], from the
    comparison of the ids or from the addition of one, and nothing is
    written or printed. *)
Theorem add_rejects_an_id_that_is_no_number title desc path now w ts :
  holds w path (PyList ts) ->
  Forall is_record ts ->
  Exists (fun t => exists d x, t = PyDict d /\ dict_get k_id d = Some x /\
                               match x with
                               | PyNone | PyStr _ | PyList _ | PyDict _ => True
                               | PyBool _ | PyInt _ => False
                               end) ts ->
  add_task title desc path now w = (Raise TypeError, w).
Proof.
  intros Hh Hrec Hex.
  assert (Hbad : Exists (fun t => id_or_zero t = None) ts).
  { eapply Exists_impl; [exact Hex|].
    intros t (d & x & -> & Hd & Hx). unfold id_or_zero. rewrite Hd.
    now destruct x. }
  pose proof (next_id_no_number ts Hrec Hbad) as Hn.
  unfold Todo.add_task, bind at 1. rewrite Hh.
  unfold bind at 1. cbn [lift py_iter].
  unfold bind at 1. unfold lift at 1.
  destruct (max_id ts) as [m|e]; cbn in Hn.
  - unfold bind at 1. unfold lift at 1. now rewrite Hn.
  - now injection Hn as ->.
Qed.

(** *** Writing twice *)

Lemma open_w_saved path m out data :
  writable m path ->
  open_w path (World (saved m path data) out) = open_w path (World m out).
Proof.
  intros Hw. unfold open_w, saved. cbn [fs stdout].
  rewrite lookup_insert_eq.
  destruct Hw as [-> | (r & d & ->)]; now rewrite insert_insert_eq.
Qed.

(** X12: the last write wins.  When the first of two calls of
    [save_tasks] on one path succeeds, the two calls leave what the second
    alone would have left: nothing of the first value stays in the file. *)
Theorem save_tasks_last_write_wins v1 v2 path w :
  writable (fs w) path ->
  encodable_value v1 ->
  bind (save_tasks v1 path) (fun _ => save_tasks v2 path) w
  = save_tasks v2 path w.
Proof.
  intros Hw He.
  destruct (utf8_encode_total _ (dumps_encodable v1 He)) as (data & Hdata).
  unfold bind at 1. rewrite (save_tasks_ok flushed v1 path w data Hw Hdata).
  unfold Todo.save_tasks, bind. rewrite (open_w_saved path (fs w) _ data Hw).
  now destruct w.
Qed.

(** *** Completing two tasks *)

Lemma find_same_ids x (l l' : list value) :
  map int_id l = map int_id l' ->
  match list_find (fun t => int_id t = Some x) l with
  | Some (j, _) =>
      exists t', list_find (fun t => int_id t = Some x) l' = Some (j, t') /\
                 l' !! j = Some t'
  | None => list_find (fun t => int_id t = Some x) l' = None
  end.
Proof.
  intros Hm.
  assert (Hl : forall j y', l' !! j = Some y' ->
                 exists y, l !! j = Some y /\ int_id y = int_id y').
  { intros j y' Hy'.
    assert (H : (int_id <$> l) !! j = (int_id <$> l') !! j)
      by (change (map int_id l !! j = map int_id l' !! j); now rewrite Hm).
    rewrite !list_lookup_fmap, Hy' in H. cbn in H.
    destruct (l !! j) as [y|]; [|discriminate]. injection H as H. eauto. }
  assert (Hr : forall j y, l !! j = Some y ->
                 exists y', l' !! j = Some y' /\ int_id y = int_id y').
  { intros j y Hy.
    assert (H : (int_id <$> l) !! j = (int_id <$> l') !! j)
      by (change (map int_id l !! j = map int_id l' !! j); now rewrite Hm).
    rewrite !list_lookup_fmap, Hy in H. cbn in H.
    destruct (l' !! j) as [y'|]; [|discriminate]. injection H as H. eauto. }
  destruct (list_find _ l) as [[j t]|] eqn:Hf.
  - apply list_find_Some in Hf as (Hj & Hp & Hbefore).
    destruct (Hr j t Hj) as (t' & Hj' & Hid).
    exists t'. split; [|exact Hj']. apply list_find_Some.
    split; [exact Hj'|]. split; [congruence|].
    intros k y' Hk Hlt Hy'. destruct (Hl k y' Hk) as (y & Hy & Hid').
    apply (Hbefore k y Hy Hlt). congruence.
  - apply list_find_None. apply Forall_forall. intros y' Hin Hy'.
    apply list_elem_of_lookup in Hin as (k & Hk).
    destruct (Hl k y' Hk) as (y & Hy & Hid').
    rewrite list_find_None, Forall_forall in Hf.
    apply (Hf y (list_elem_of_lookup_2 _ _ _ Hy)). congruence.
Qed.

Lemma marked_ids (ts : list value) i t :
  ts !! i = Some t ->
  map int_id (<[i := mark_done t]> ts) = map int_id ts.
Proof.
  intros Hi. change (int_id <$> <[i := mark_done t]> ts = int_id <$> ts).
  rewrite list_fmap_insert, mark_done_id.
  apply list_insert_id. now rewrite list_lookup_fmap, Hi.
Qed.

Lemma marks_commute (ts : list value) i j t1 t2 t1' t2' :
  ts !! i = Some t1 -> ts !! j = Some t2 ->
  <[i := mark_done t1]> ts !! j = Some t2' ->
  <[j := mark_done t2]> ts !! i = Some t1' ->
  <[j := mark_done t2']> (<[i := mark_done t1]> ts)
  = <[i := mark_done t1']> (<[j := mark_done t2]> ts).
Proof.
  intros Hi Hj Hj' Hi'. destruct (decide (i = j)) as [->|Hne].
  - assert (t1 = t2) by congruence. subst t2.
    rewrite list_lookup_insert_eq in Hj' by (eapply lookup_lt_Some; eauto).
    rewrite list_lookup_insert_eq in Hi' by (eapply lookup_lt_Some; eauto).
    injection Hj' as <-. injection Hi' as <-.
    now rewrite mark_done_idem, !list_insert_insert_eq.
  - rewrite list_lookup_insert_ne in Hj' by exact Hne.
    rewrite list_lookup_insert_ne in Hi' by auto.
    assert (t2' = t2) by congruence. assert (t1' = t1) by congruence. subst.
    now apply list_insert_insert_ne.
Qed.

Lemma holds_any_output w out' path v :
  holds w path v -> holds (World (fs w) out') path v.
Proof.
  destruct w as [m out].
  unfold Todo.holds, Todo.load_tasks, bind, os_path_exists, open_r, read.
  cbn [fs stdout].
  destruct (m !! path) as [[r wr data| |]|] eqn:E; cbn; rewrite ?E;
    unfold ret, raise; try congruence.
  destruct r; cbn; try congruence.
  destruct (utf8_decode data); cbn; [|congruence].
  destruct (json_loads _); cbn; unfold ret; congruence.
Qed.

Lemma complete_task_run x path w ts out :
  holds w path (PyList ts) -> Forall is_record ts ->
  wf_value (PyList ts) -> encodable_value (PyList ts) ->
  usable (fs w) path ->
  match list_find (fun t => int_id t = Some x) ts with
  | Some (j, t) =>
      exists data,
        utf8_encode (dumps (PyList (<[j := mark_done t]> ts))) = Some data /\
        complete_task x path w
        = (Ret tt, World (saved (fs w) path data)
                     (stdout w ++ [lit "Marked task " ++ int_str x
                                   ++ lit " complete."])) /\
        holds (World (saved (fs w) path data) out) path
          (PyList (<[j := mark_done t]> ts)) /\
        Forall is_record (<[j := mark_done t]> ts) /\
        wf_value (PyList (<[j := mark_done t]> ts)) /\
        encodable_value (PyList (<[j := mark_done t]> ts))
  | None =>
      complete_task x path w
      = (Ret tt, World (fs w)
                   (stdout w ++ [lit "No task found with id " ++ int_str x
                                 ++ lit "."]))
  end.
Proof.
  intros Hh Hrec Hwf He Hu.
  destruct (list_find _ ts) as [[j t]|] eqn:Hf.
  - destruct (complete_found json_loads flushed x path w ts j t
                Hh Hrec Hwf He Hu Hf) as (data & Hd & Hrun & Hwf' & He' & Hrec').
    exists data. repeat (split; [assumption|]).
    split; [|auto].
    now apply (load_saved json_loads json_loads_dumps).
  - rewrite (complete_task_spec json_loads flushed x path w ts Hh Hrec), Hf.
    apply print_run.
Qed.

Lemma complete_found_and_missing x y path w ts i t :
  holds w path (PyList ts) -> Forall is_record ts ->
  wf_value (PyList ts) -> encodable_value (PyList ts) ->
  usable (fs w) path ->
  list_find (fun u => int_id u = Some x) ts = Some (i, t) ->
  list_find (fun u => int_id u = Some y) ts = None ->
  exists data w_xy w_yx,
    bind (complete_task x path) (fun _ => complete_task y path) w
    = (Ret tt, w_xy) /\
    bind (complete_task y path) (fun _ => complete_task x path) w
    = (Ret tt, w_yx) /\
    fs w_xy = saved (fs w) path data /\ fs w_yx = saved (fs w) path data.
Proof.
  intros Hh Hrec Hwf He Hu Hx Hy.
  pose proof (complete_task_run x path w ts
                (stdout w ++ [lit "Marked task " ++ int_str x ++ lit " complete."])
                Hh Hrec Hwf He Hu) as Hx1.
  rewrite Hx in Hx1. destruct Hx1 as (data & Hd & Hrun & Hh' & Hrec' & Hwf' & He').
  apply list_find_Some in Hx as Hx'. destruct Hx' as (Hi & _ & _).
  pose proof (find_same_ids y ts _ (eq_sym (marked_ids ts i t Hi))) as Hy1.
  rewrite Hy in Hy1.
  pose proof (complete_task_run y path _ _ [] Hh' Hrec' Hwf' He'
                (saved_usable _ _ _ Hu)) as Hy2.
  rewrite Hy1 in Hy2. cbn [fs stdout] in Hy2.
  pose proof (complete_task_run y path w ts [] Hh Hrec Hwf He Hu) as Hy3.
  rewrite Hy in Hy3.
  pose proof (complete_task_run x path
                (World (fs w) (stdout w ++ [lit "No task found with id "
                                            ++ int_str y ++ lit "."])) ts []
                (holds_any_output w _ path _ Hh)
                Hrec Hwf He Hu) as Hx2.
  rewrite Hx in Hx2. destruct Hx2 as (data2 & Hd2 & Hrun2 & _).
  assert (data2 = data) by congruence. subst data2.
  exists data. eexists. eexists.
  split; [unfold bind; rewrite Hrun; exact Hy2|].
  split; [unfold bind; rewrite Hy3; exact Hrun2|].
  split; reflexivity.
Qed.

(** X13: the order of two completions does not matter to the store.  On a
    store of records, [complete_task] for one id and then for another
    leaves the files that the two calls leave in the other order, whether
    the ids are found or not; only the two lines printed change places. *)
Theorem complete_task_commutes a b path w ts :
  holds w path (PyList ts) ->
  Forall is_record ts ->
  wf_value (PyList ts) -> encodable_value (PyList ts) ->
  usable (fs w) path ->
  exists w_ab w_ba,
    bind (complete_task a path) (fun _ => complete_task b path) w
    = (Ret tt, w_ab) /\
    bind (complete_task b path) (fun _ => complete_task a path) w
    = (Ret tt, w_ba) /\
    fs w_ab = fs w_ba.
Proof.
  intros Hh Hrec Hwf He Hu.
  destruct (list_find (fun u => int_id u = Some a) ts) as [[i t1]|] eqn:Ea;
    destruct (list_find (fun u => int_id u = Some b) ts) as [[j t2]|] eqn:Eb.
  - pose proof (complete_task_run a path w ts
                  (stdout w ++ [lit "Marked task " ++ int_str a ++ lit " complete."])
                  Hh Hrec Hwf He Hu) as Ha.
    rewrite Ea in Ha. destruct Ha as (da & Hda & Hra & Hha & Hreca & Hwfa & Hea).
    pose proof (complete_task_run b path w ts
                  (stdout w ++ [lit "Marked task " ++ int_str b ++ lit " complete."])
                  Hh Hrec Hwf He Hu) as Hb.
    rewrite Eb in Hb. destruct Hb as (db & Hdb & Hrb & Hhb & Hrecb & Hwfb & Heb).
    apply list_find_Some in Ea as Ea'. destruct Ea' as (Hi & _ & _).
    apply list_find_Some in Eb as Eb'. destruct Eb' as (Hj & _ & _).
    pose proof (find_same_ids b ts _ (eq_sym (marked_ids ts i t1 Hi))) as Hb1.
    rewrite Eb in Hb1. destruct Hb1 as (t2' & Hfb & Hj').
    pose proof (find_same_ids a ts _ (eq_sym (marked_ids ts j t2 Hj))) as Ha1.
    rewrite Ea in Ha1. destruct Ha1 as (t1' & Hfa & Hi').
    pose proof (complete_task_run b path _ _ [] Hha Hreca Hwfa Hea
                  (saved_usable _ _ _ Hu)) as Hab.
    rewrite Hfb in Hab. destruct Hab as (dab & Hdab & Hrab & _).
    pose proof (complete_task_run a path _ _ [] Hhb Hrecb Hwfb Heb
                  (saved_usable _ _ _ Hu)) as Hba.
    rewrite Hfa in Hba. destruct Hba as (dba & Hdba & Hrba & _).
    rewrite (marks_commute ts i j t1 t2 t1' t2' Hi Hj Hj' Hi') in Hdab.
    assert (dba = dab) by congruence. subst dba.
    eexists. eexists.
    split; [unfold bind; rewrite Hra; exact Hrab|].
    split; [unfold bind; rewrite Hrb; exact Hrba|].
    cbn [fs]. now rewrite !saved_saved.
  - destruct (complete_found_and_missing a b path w ts i t1 Hh Hrec Hwf He Hu Ea Eb)
      as (data & w1 & w2 & H1 & H2 & F1 & F2).
    exists w1, w2. repeat split; congruence.
  - destruct (complete_found_and_missing b a path w ts j t2 Hh Hrec Hwf He Hu Eb Ea)
      as (data & w1 & w2 & H1 & H2 & F1 & F2).
    exists w2, w1. repeat split; congruence.
  - pose proof (complete_task_run a path w ts [] Hh Hrec Hwf He Hu) as Ha.
    rewrite Ea in Ha.
    pose proof (complete_task_run b path w ts [] Hh Hrec Hwf He Hu) as Hb.
    rewrite Eb in Hb.
    pose proof (complete_task_run b path
                  (World (fs w) (stdout w ++ [lit "No task found with id "
                                              ++ int_str a ++ lit "."])) ts []
                  (holds_any_output w _ path _ Hh)
                  Hrec Hwf He Hu) as Hab.
    rewrite Eb in Hab.
    pose proof (complete_task_run a path
                  (World (fs w) (stdout w ++ [lit "No task found with id "
                                              ++ int_str b ++ lit "."])) ts []
                  (holds_any_output w _ path _ Hh)
                  Hrec Hwf He Hu) as Hba.
    rewrite Ea in Hba.
    eexists. eexists.
    split; [unfold bind; rewrite Ha; exact Hab|].
    split; [unfold bind; rewrite Hb; exact Hba|].
    reflexivity.
Qed.

(** *** Listing after a change *)

Lemma task_line_new_task i title desc now :
  task_line repr (new_task (PyInt i) title desc now)
  = Ret (lit "[ ] " ++ int_str i ++ lit ": " ++ title ++ lit " - " ++ desc).
Proof. reflexivity. Qed.

(** X14: [list_tasks] after [add_task] shows the new task last and not
    done.  The lines of the tasks that were there are those of before; the
    line added carries the new id, the title and the description. *)
Theorem add_then_list_shows_the_new_task title desc path now w ts ids lines :
  holds w path (PyList ts) ->
  Forall2 (fun t i => exists d, t = PyDict d /\
                                dict_get k_id d = Some (PyInt i)) ts ids ->
  wf_value (PyList ts) -> encodable_value (PyList ts) ->
  encodable title -> encodable desc ->
  usable (fs w) path ->
  Forall2 (fun t l => task_line repr t = Ret l) ts lines ->
  exists w1 i,
    add_task title desc path now w = (Ret tt, w1) /\
    list_tasks path w1
    = (Ret tt,
       World (fs w1)
         (stdout w1 ++ lines
          ++ [lit "[ ] " ++ int_str i ++ lit ": " ++ title
              ++ lit " - " ++ desc])).
Proof.
  intros Hh Hids Hwf He Ht Hd Hu Hl.
  destruct (add_task_spec json_loads repr flushed
              title desc path now w ts ids Hh (typed_ids _ _ Hids) Hwf He Ht Hd Hu)
    as (data & Hdata & Hrun & Hwf' & He' & _).
  set (i := (max_or_zero ids + 1)%Z) in *.
  eexists. exists i. split; [exact Hrun|].
  unfold Todo.list_tasks, bind at 1.
  rewrite (load_saved json_loads json_loads_dumps _ path (fs w) _ data Hwf' Hu Hdata).
  assert (Htr : truthy (PyList (ts ++ [new_task (PyInt i) title desc now])) = true).
  { cbn [truthy]. rewrite bool_decide_eq_false_2; [reflexivity|]. now destruct ts. }
  rewrite Htr. cbn [negb]. unfold bind at 1. cbn [lift py_iter].
  rewrite (list_loop_spec repr _
             (lines ++ [lit "[ ] " ++ int_str i ++ lit ": " ++ title
                        ++ lit " - " ++ desc])).
  - reflexivity.
  - apply Forall2_app; [exact Hl|]. constructor; [|constructor].
    apply task_line_new_task.
Qed.

Lemma task_line_mark d l :
  task_line repr (PyDict d) = Ret l ->
  task_line repr (mark_done (PyDict d))
  = Ret (lit "[" ++ check_mark ++ lit "] " ++ drop 4 l).
Proof.
  cbn [mark_done]. rewrite !task_line_record. intros [= <-].
  rewrite dict_get_set_eq.
  rewrite !dict_get_set_ne by discriminate.
  cbn [default truthy]. f_equal. f_equal.
  now destruct (truthy (default PyNone (dict_get k_done d))).
Qed.

(** X15: [list_tasks] after [complete_task] shows the mark.  The listing
    is that of before except for the line of the task that was marked,
    which now starts with the check mark; what follows the mark on that
    line, and every other line, is as before. *)
Theorem complete_then_list_shows_the_mark task_id path w ts j t lines :
  holds w path (PyList ts) ->
  Forall is_record ts ->
  wf_value (PyList ts) -> encodable_value (PyList ts) ->
  usable (fs w) path ->
  list_find (fun u => int_id u = Some task_id) ts = Some (j, t) ->
  Forall2 (fun t l => task_line repr t = Ret l) ts lines ->
  exists w1 l,
    complete_task task_id path w = (Ret tt, w1) /\
    lines !! j = Some l /\
    list_tasks path w1
    = (Ret tt,
       World (fs w1)
         (stdout w1
          ++ <[j := lit "[" ++ check_mark ++ lit "] " ++ drop 4 l]> lines)).
Proof.
  intros Hh Hrec Hwf He Hu Hf Hl.
  destruct (complete_found json_loads flushed task_id path w ts j t
              Hh Hrec Hwf He Hu Hf) as (data & Hd & Hrun & Hwf' & He' & Hrec').
  apply list_find_Some in Hf as (Hj & _ & _).
  destruct (Forall2_lookup_l _ _ _ _ _ Hl Hj) as (l & Hlj & Hline).
  eexists. exists l. split; [exact Hrun|]. split; [exact Hlj|].
  unfold Todo.list_tasks, bind at 1.
  rewrite (load_saved json_loads json_loads_dumps _ path (fs w) _ data Hwf' Hu Hd).
  assert (Htr : truthy (PyList (<[j := mark_done t]> ts)) = true).
  { cbn [truthy]. rewrite bool_decide_eq_false_2; [reflexivity|].
    intros Hnil. apply (f_equal length) in Hnil.
    rewrite length_insert in Hnil. apply lookup_lt_Some in Hj. cbn in Hnil. lia. }
  rewrite Htr. cbn [negb]. unfold bind at 1. cbn [lift py_iter].
  rewrite (list_loop_spec repr _
             (<[j := lit "[" ++ check_mark ++ lit "] " ++ drop 4 l]> lines)).
  - reflexivity.
  - apply Forall2_insert; [exact Hl|].
    rewrite Forall_forall in Hrec.
    pose proof (Hrec t (list_elem_of_lookup_2 _ _ _ Hj)) as Ht.
    destruct t as [| | | | |d]; try contradiction.
    now apply task_line_mark.
Qed.

End Edges.

(** *** The text of the file *)

Lemma digits_plain w n : Forall (fun c => 48 <= c <= 57) (digits w n).
Proof.
  revert n. induction w as [|w IH]; intros n; cbn [digits]; [constructor|].
  rewrite Forall_app. split; [apply IH|]. constructor; [|constructor].
  pose proof (N.mod_lt n 10 ltac:(discriminate)) as H.
  set (r := n mod 10) in *. clearbody r. lia.
Qed.

Lemma encode_str_plain s :
  Forall (fun c => 32 <= c /\ c <> 34 /\ c <> 92) s ->
  encode_str s = 34 :: s ++ [34].
Proof.
  intros H. unfold encode_str. f_equal. f_equal.
  induction H as [|c s (H32 & H34 & H92) _ IH]; [reflexivity|].
  cbn [flat_map]. rewrite IH. unfold escape_char.
  repeat match goal with
         | |- context [?a =? ?b] =>
             destruct (N.eqb_spec a b); [lia|]
         end.
  destruct (N.ltb_spec c 32); [lia|]. reflexivity.
Qed.

Lemma plain_forallb (s : str) :
  forallb (fun c => (32 <=? c) && negb (c =? 34) && negb (c =? 92)) s = true ->
  Forall (fun c => 32 <= c /\ c <> 34 /\ c <> 92) s.
Proof.
  intros H. apply Forall_forall. intros c Hc. apply list_elem_of_In in Hc.
  rewrite forallb_forall in H. specialize (H c Hc).
  apply andb_true_iff in H as [H H92]. apply andb_true_iff in H as [H32 H34].
  apply N.leb_le in H32. apply negb_true_iff, N.eqb_neq in H34, H92. auto.
Qed.

Lemma isoformat_plain t :
  Forall (fun c => 32 <= c /\ c <> 34 /\ c <> 92) (isoformat t ++ lit "Z").
Proof.
  assert (Hd : forall w n, Forall (fun c => 32 <= c /\ c <> 34 /\ c <> 92)
                             (digits w n)).
  { intros w n. eapply Forall_impl; [apply digits_plain|].
    intros c Hc. cbv beta in Hc. lia. }
  unfold isoformat. rewrite !Forall_app.
  repeat split; try apply Hd; try (apply plain_forallb; reflexivity).
  destruct (microsecond t =? 0); [constructor|].
  rewrite Forall_app. split; [apply plain_forallb; reflexivity | apply Hd].
Qed.

Section Format.

Variable json_loads : str -> option value.
Variable repr : value -> str.
Variable flushed : str -> list byte.

(** X16: the text of the file after the first [add_task].  On a path
    where nothing is, with a title and a description that hold no quote,
    no backslash and no control character, the file is the UTF-8 of a
    list of one object, indented by two spaces, with the five keys in the
    order of the source, the id 1, the title and the description as they
    were given, in whatever script, and no line break at the end. *)
Theorem first_task_on_disk title desc path now w :
  fs w !! path = None ->
  encodable title -> encodable desc ->
  Forall (fun c => 32 <= c /\ c <> 34 /\ c <> 92) title ->
  Forall (fun c => 32 <= c /\ c <> 34 /\ c <> 92) desc ->
  exists w' data,
    Todo.add_task json_loads repr flushed title desc path now w = (Ret tt, w') /\
    fs w' !! path = Some (File true true data) /\
    utf8_decode data
    = Some (lit "[" ++ [10]
            ++ lit "  {" ++ [10]
            ++ lit "    " ++ [34] ++ lit "id" ++ [34] ++ lit ": 1," ++ [10]
            ++ lit "    " ++ [34] ++ lit "title" ++ [34] ++ lit ": "
            ++ [34] ++ title ++ [34] ++ lit "," ++ [10]
            ++ lit "    " ++ [34] ++ lit "description" ++ [34] ++ lit ": "
            ++ [34] ++ desc ++ [34] ++ lit "," ++ [10]
            ++ lit "    " ++ [34] ++ lit "created_at" ++ [34] ++ lit ": "
            ++ [34] ++ isoformat now ++ lit "Z" ++ [34] ++ lit "," ++ [10]
            ++ lit "    " ++ [34] ++ lit "done" ++ [34] ++ lit ": false" ++ [10]
            ++ lit "  }" ++ [10]
            ++ lit "]").
Proof.
  intros Hf Ht Hd Hpt Hpd.
  pose proof (load_tasks_absent json_loads path w Hf) as Hh.
  destruct (add_task_spec json_loads repr flushed title desc path now w [] []
              Hh ltac:(constructor) I ltac:(constructor) Ht Hd ltac:(now left))
    as (data & Hdata & Hrun & _).
  eexists. exists data. split; [exact Hrun|].
  split; [apply saved_lookup; now left|].
  rewrite (utf8_decode_encode _ _ Hdata). f_equal.
  unfold dumps, new_task. cbn [app encode map join fst snd].
  rewrite (encode_str_plain title Hpt), (encode_str_plain desc Hpd),
    (encode_str_plain _ (isoformat_plain now)).
  repeat (rewrite <- app_assoc || rewrite <- app_comm_cons). reflexivity.
Qed.

End Format.

(** *** The further statements on the sample data *)

(** A second file next to the store stays as it is when a task is added
    and when one is completed. *)
Lemma other_files_untouched_witness :
  let w := World (<["notes.txt" := File true true []]>
                    (fs (Sample.world_with (PyList Sample.populated)))) [] in
  fs (snd (add_task loads Sample.no_repr Sample.no_bytes (lit "a") []
             Sample.path Sample.noon w)) !! "notes.txt"
  = Some (File true true []) /\
  fs (snd (complete_task loads Sample.no_bytes 2 Sample.path w)) !! "notes.txt"
  = Some (File true true []).
Proof.
  intros w.
  destruct (other_files_untouched loads Sample.no_repr Sample.no_bytes
              Sample.path "notes.txt" w (PyList []) (lit "a") [] Sample.noon 2)
    as (_ & Ha & Hc & _); [discriminate|].
  rewrite Ha, Hc. split; reflexivity.
Defined.


(** A file of one byte that is no UTF-8: the three operations raise
    [UnicodeDecodeError] and the file stays. *)
Lemma load_failure_reaches_the_caller_witness :
  add_task loads Sample.no_repr Sample.no_bytes (lit "a") [] Sample.path
    Sample.noon Sample.binary_world
  = (Raise UnicodeDecodeError, Sample.binary_world) /\
  list_tasks loads Sample.no_repr Sample.path Sample.binary_world
  = (Raise UnicodeDecodeError, Sample.binary_world) /\
  complete_task loads Sample.no_bytes 1 Sample.path Sample.binary_world
  = (Raise UnicodeDecodeError, Sample.binary_world).
Proof.
  destruct (load_failure_reaches_the_caller loads Sample.no_repr Sample.no_bytes
              Sample.path Sample.binary_world) as (Hall & Hbin).
  apply (Hall UnicodeDecodeError
           (Hbin true ["255"%byte] eq_refl eq_refl)).
Defined.

(** The file of [test_load_tasks_from_invalid_json]: after [add_task] it
    holds the new task alone. *)
Lemma invalid_json_is_replaced_by_add_witness :
  exists w',
    add_task loads Sample.no_repr Sample.no_bytes (lit "a") [] Sample.path
      Sample.noon Sample.garbled_world = (Ret tt, w') /\
    holds loads w' Sample.path
      (PyList [new_task (PyInt 1) (lit "a") [] Sample.noon]).
Proof.
  destruct (invalid_json_is_replaced_by_add loads Sample.no_repr Sample.no_bytes
              loads_dumps Sample.path Sample.garbled_world
              (default [] (utf8_encode (lit "invalid json {")))
              (lit "invalid json {") (lit "a") [] Sample.noon)
    as (_ & _ & w' & data & Hrun & _ & _ & Hh);
    [reflexivity | vm_compute; reflexivity | vm_compute; reflexivity
    | repeat constructor | repeat constructor |].
  exists w'. auto.
Defined.

(** After the ids 1 and 5 comes 6, and the three ids are different. *)
Lemma add_keeps_ids_apart_witness :
  exists w' i,
    add_task loads Sample.no_repr Sample.no_bytes (lit "next") [] Sample.path
      Sample.noon (Sample.world_with (PyList Sample.gapped)) = (Ret tt, w') /\
    NoDup ([1; 5] ++ [i])%Z /\ Forall (fun j => 0 < j)%Z ([1; 5] ++ [i])%Z.
Proof.
  destruct (add_keeps_ids_apart loads Sample.no_repr Sample.no_bytes loads_dumps
              (lit "next") [] Sample.path Sample.noon
              (Sample.world_with (PyList Sample.gapped)) Sample.gapped [1; 5]%Z)
    as (w' & i & Hrun & _ & _ & _ & Hnd & Hpos);
    [sample_holds
    | repeat (constructor; [eexists; split; reflexivity|]); constructor
    | sample_wf | sample_encodable | repeat constructor | repeat constructor
    | sample_usable |].
  exists w', i. split; [exact Hrun|]. split.
  - apply Hnd. apply NoDup_ListNoDup. repeat constructor; cbn; intuition discriminate.
  - apply Hpos. repeat constructor.
Defined.


(** A store where a string follows the task with the id 1: that task can
    be completed, the one with the id 2, behind the string, cannot. *)
Lemma complete_looks_no_further_witness :
  let t1 := Sample.task 1 (lit "a") [] (lit "2026-02-09T10:00:00Z") false in
  let t2 := Sample.task 2 (lit "b") [] (lit "2026-02-09T10:00:00Z") false in
  let w := Sample.world_with (PyList [t1; PyStr (lit "note"); t2]) in
  (exists w',
     complete_task loads Sample.no_bytes 1 Sample.path w = (Ret tt, w') /\
     holds loads w' Sample.path
       (PyList [mark_done t1; PyStr (lit "note"); t2])) /\
  complete_task loads Sample.no_bytes 2 Sample.path w
  = (Raise AttributeError, w).
Proof.
  intros t1 t2 w. split.
  - destruct (complete_looks_no_further loads Sample.no_bytes loads_dumps
                1 Sample.path w [] t1 [PyStr (lit "note"); t2])
      as ((w' & Hrun & Hh & _) & _);
      [sample_holds | constructor | constructor | reflexivity | sample_wf
      | sample_encodable | sample_usable |].
    exists w'. auto.
  - apply (complete_looks_no_further loads Sample.no_bytes loads_dumps
             2 Sample.path w [t1] (PyStr (lit "note")) [t2]);
      [sample_holds | repeat constructor
      | repeat constructor; discriminate | intros []].
Defined.


(** A file that holds an object with the tasks under a key: nothing can
    be added to it. *)
Lemma store_that_is_no_list_is_left_alone_witness :
  let w := Sample.world_with (PyDict [(lit "tasks", PyList Sample.populated)]) in
  add_task loads Sample.no_repr Sample.no_bytes (lit "a") [] Sample.path
    Sample.noon w
  = (Raise AttributeError, w).
Proof.
  intros w.
  apply (store_that_is_no_list_is_left_alone loads Sample.no_repr Sample.no_bytes
           Sample.path w (PyDict [(lit "tasks", PyList Sample.populated)]));
    [sample_holds | discriminate].
Defined.

(** An id written as the string ["7"]. *)
Lemma add_rejects_an_id_that_is_no_number_witness :
  let ts := [ PyDict [(lit "id", PyStr (lit "7")); (lit "title", PyStr (lit "a"))];
              Sample.task 2 (lit "b") [] (lit "2026-02-09T10:00:00Z") false ] in
  add_task loads Sample.no_repr Sample.no_bytes (lit "a") [] Sample.path
    Sample.noon (Sample.world_with (PyList ts))
  = (Raise TypeError, Sample.world_with (PyList ts)).
Proof.
  intros ts.
  apply (add_rejects_an_id_that_is_no_number loads Sample.no_repr Sample.no_bytes
           (lit "a") [] Sample.path Sample.noon (Sample.world_with (PyList ts)) ts);
    [sample_holds | repeat constructor |].
  apply Exists_cons_hd. eexists. eexists.
  split; [reflexivity|]. split; [reflexivity | exact I].
Defined.

(** The fixture saved over an empty list, and over nothing. *)
Lemma save_tasks_last_write_wins_witness :
  bind (save_tasks Sample.no_bytes (PyList []) Sample.path)
    (fun _ => save_tasks Sample.no_bytes (PyList Sample.populated) Sample.path)
    Sample.empty_world
  = save_tasks Sample.no_bytes (PyList Sample.populated) Sample.path
      Sample.empty_world.
Proof.
  apply (save_tasks_last_write_wins Sample.no_bytes (PyList [])
           (PyList Sample.populated) Sample.path Sample.empty_world);
    [left; reflexivity | sample_encodable].
Defined.

(** The fixture: the tasks 1 and 2 are completed in either order. *)
Lemma complete_task_commutes_witness :
  exists w_ab w_ba,
    bind (complete_task loads Sample.no_bytes 1 Sample.path)
      (fun _ => complete_task loads Sample.no_bytes 2 Sample.path)
      (Sample.world_with (PyList Sample.populated)) = (Ret tt, w_ab) /\
    bind (complete_task loads Sample.no_bytes 2 Sample.path)
      (fun _ => complete_task loads Sample.no_bytes 1 Sample.path)
      (Sample.world_with (PyList Sample.populated)) = (Ret tt, w_ba) /\
    fs w_ab = fs w_ba.
Proof.
  apply (complete_task_commutes loads Sample.no_bytes loads_dumps 1 2
           Sample.path (Sample.world_with (PyList Sample.populated))
           Sample.populated);
    [sample_holds | repeat constructor | sample_wf | sample_encodable
    | sample_usable].
Defined.

(** After the ids 1 and 5: the listing ends with the line of the task
    6. *)
Lemma add_then_list_shows_the_new_task_witness :
  exists w1 i,
    add_task loads Sample.no_repr Sample.no_bytes (lit "next") (lit "soon")
      Sample.path Sample.noon (Sample.world_with (PyList Sample.gapped))
    = (Ret tt, w1) /\
    list_tasks loads Sample.no_repr Sample.path w1
    = (Ret tt,
       World (fs w1)
         (stdout w1
          ++ [lit "[ ] 1: a - "; [91; 10003; 93] ++ lit " 5: b - "]
          ++ [lit "[ ] " ++ int_str i ++ lit ": next - soon"])).
Proof.
  apply (add_then_list_shows_the_new_task loads Sample.no_repr Sample.no_bytes
           loads_dumps (lit "next") (lit "soon") Sample.path Sample.noon
           (Sample.world_with (PyList Sample.gapped)) Sample.gapped [1; 5]%Z);
    [sample_holds
    | repeat (constructor; [eexists; split; reflexivity|]); constructor
    | sample_wf | sample_encodable | repeat constructor | repeat constructor
    | sample_usable
    | repeat (constructor; [reflexivity|]); constructor].
Defined.

(** The fixture: after the task 2 is completed its line has the mark. *)
Lemma complete_then_list_shows_the_mark_witness :
  exists w1,
    complete_task loads Sample.no_bytes 2 Sample.path
      (Sample.world_with (PyList Sample.populated)) = (Ret tt, w1) /\
    list_tasks loads Sample.no_repr Sample.path w1
    = (Ret tt,
       World (fs w1)
         (stdout w1
          ++ [ lit "[ ] 1: Buy groceries - Milk, bread, eggs";
               [91; 10003; 93]
               ++ lit " 2: Fix bug - ID comparison in complete_task";
               [91; 10003; 93]
               ++ lit " 3: Write tests - Unit tests for todo app" ])).
Proof.
  destruct (complete_then_list_shows_the_mark loads Sample.no_repr
              Sample.no_bytes loads_dumps 2 Sample.path
              (Sample.world_with (PyList Sample.populated)) Sample.populated
              1%nat
              (Sample.task 2 (lit "Fix bug")
                 (lit "ID comparison in complete_task")
                 (lit "2026-02-09T11:00:00Z") false)
              [ lit "[ ] 1: Buy groceries - Milk, bread, eggs";
                lit "[ ] 2: Fix bug - ID comparison in complete_task";
                [91; 10003; 93]
                ++ lit " 3: Write tests - Unit tests for todo app" ])
    as (w1 & l & Hrun & Hl & Hlist);
    [sample_holds | repeat constructor | sample_wf | sample_encodable
    | sample_usable | reflexivity
    | repeat (constructor; [reflexivity|]); constructor |].
  exists w1. split; [exact Hrun|]. injection Hl as <-. exact Hlist.
Defined.

(** The title of [test_add_task_with_special_characters], on a path where
    nothing is: the file is made and holds the text that [json.dump]
    gives, with the title as it was given. *)
Lemma first_task_on_disk_witness :
  exists w' data,
    add_task loads Sample.no_repr Sample.no_bytes Sample.cafe_title
      Sample.cafe_desc Sample.path Sample.noon Sample.empty_world
    = (Ret tt, w') /\
    fs w' !! Sample.path = Some (File true true data) /\
    utf8_decode data
    = Some (dumps (PyList [Sample.task 1 Sample.cafe_title Sample.cafe_desc
                             (lit "2026-02-09T12:00:00Z") false])).
Proof.
  destruct (first_task_on_disk loads Sample.no_repr Sample.no_bytes
              Sample.cafe_title Sample.cafe_desc Sample.path Sample.noon
              Sample.empty_world)
    as (w' & data & Hrun & Hf & Htext);
    [reflexivity | repeat constructor | repeat constructor
    | apply plain_forallb; reflexivity | apply plain_forallb; reflexivity |].
  exists w', data. split; [exact Hrun|]. split; [exact Hf|].
  rewrite Htext. reflexivity.
Defined.
